(** * ReactQuerySelectorDataProvider: a shallow embedding

    The class [ReactQuerySelectorDataProvider] keeps a raw item array, a
    derived ("selected") item array, loading and error flags, a selector
    with its dependency list and a set of subscriber callbacks.  Its methods
    are embedded as computations of a small state-and-exception monad over a
    [world]: the fields of [this], the allocator of object references and a
    trace of the calls that leave the provider (selector, subscribers,
    console).

    Conventions of the embedding:
    - every JavaScript object (item, array, Error, function) carries the
      reference it was allocated at; [!==] on objects compares references;
    - numbers are integers, plus [NaN], on which strict equality is not
      reflexive; array lengths are unbounded;
    - any value can be thrown; reading [.message] of a thrown [null] or
      [undefined] raises a [TypeError], and an object converts to a string
      by the built-in [toString];
    - a selector is a function of its arguments only; a subscriber callback
      does not call back into the provider and behaves the same way each
      time it is called; either may throw.

    After the provider come the selector library ([filterByTypes],
    [combine]) and, from the hook, the default transformer and the effect
    that pushes the query state into the provider. *)

From Stdlib Require Import ZArith String List Bool Arith Lia DecimalString.
Import ListNotations.
Local Open Scope string_scope.

(** ** JavaScript values and built-ins used by the provider *)

Module Js.

Definition ref := nat.

Inductive number :=
| NaN
| Int (z : Z).

Inductive value :=
| VUndefined
| VNull
| VBool (b : bool)
| VNumber (n : number)
| VString (s : string)
| VObject (r : ref) (o : object)
with object :=
| Opaque
| ErrorObject (msg : string)
| Literal (props : list (string * value)).

(** [a === b] *)
Definition strict_eq (a b : value) : bool :=
  match a, b with
  | VUndefined, VUndefined => true
  | VNull, VNull => true
  | VBool x, VBool y => Bool.eqb x y
  | VNumber (Int x), VNumber (Int y) => Z.eqb x y
  | VString x, VString y => String.eqb x y
  | VObject r1 _, VObject r2 _ => Nat.eqb r1 r2
  | _, _ => false
  end.

(** [a !== b] *)
Definition strict_neq (a b : value) : bool := negb (strict_eq a b).

(** [v[k]] for an object [v]; a missing property reads as [undefined]. *)
Fixpoint assoc (k : string) (props : list (string * value)) : value :=
  match props with
  | [] => VUndefined
  | (k', v) :: rest => if String.eqb k k' then v else assoc k rest
  end.

Definition get_prop (v : value) (k : string) : value :=
  match v with
  | VObject _ (Literal props) => assoc k props
  | VObject _ (ErrorObject msg) =>
      if String.eqb k "message" then VString msg else VUndefined
  | _ => VUndefined
  end.

(** An [Error] object: its reference and its [message]. *)
Record Error := { err_ref : ref; message : string }.

Definition error_value (e : Error) : value :=
  VObject (err_ref e) (ErrorObject (message e)).

(** [a !== b] on [Error | null]. *)
Definition error_neq (a b : option Error) : bool :=
  match a, b with
  | None, None => false
  | Some x, Some y => negb (Nat.eqb (err_ref x) (err_ref y))
  | _, _ => true
  end.

(** [a !== b] on [string | undefined], the type of [arr[i]?.id]. *)
Definition opt_string_neq (a b : option string) : bool :=
  match a, b with
  | None, None => false
  | Some x, Some y => negb (String.eqb x y)
  | _, _ => true
  end.

(** [ListItem<T>] of the list library: [{ id, content, type? }]. *)
Record ListItem := {
  item_ref : ref;
  id : string;
  content : value;
  type : option string
}.

(** An array of items, with the reference of the array object. *)
Record Array := { arr_ref : ref; elements : list ListItem }.

Definition length_of (a : Array) : nat := List.length (elements a).

(** [l[i]] for an integer [i]: [undefined] out of range. *)
Definition index {A} (l : list A) (i : Z) : option A :=
  if (i <? 0)%Z then None else nth_error l (Z.to_nat i).

(** [a[i]?.id] *)
Definition id_at (a : Array) (i : Z) : option string :=
  option_map id (index (elements a) i).

(** [Array.prototype.slice(start, end)] on integer arguments. *)
Definition slice {A} (l : list A) (start stop : Z) : list A :=
  let len := Z.of_nat (List.length l) in
  let k := if (start <? 0)%Z then Z.max (len + start) 0 else Z.min start len in
  let final := if (stop <? 0)%Z then Z.max (len + stop) 0 else Z.min stop len in
  firstn (Z.to_nat (final - k)) (skipn (Z.to_nat k) l).

(** The template literal [`${n}`] on an integer. *)
Definition string_of_Z (n : Z) : string := NilZero.string_of_int (Z.to_int n).

(** [v] is [null] or [undefined]. *)
Definition nullish (v : value) : bool :=
  match v with
  | VUndefined | VNull => true
  | _ => false
  end.

(** The template literal [`${v}`] on a value: an [Error] object prints as
    [Error.prototype.toString] does, another object as
    [Object.prototype.toString]. *)
Definition to_string (v : value) : string :=
  match v with
  | VUndefined => "undefined"
  | VNull => "null"
  | VBool true => "true"
  | VBool false => "false"
  | VNumber NaN => "NaN"
  | VNumber (Int z) => string_of_Z z
  | VString s => s
  | VObject _ (ErrorObject msg) =>
      if String.eqb msg "" then "Error" else "Error: " ++ msg
  | VObject _ _ => "[object Object]"
  end.

End Js.

(** ** Computations: state, allocation, trace and exceptions *)

Module Exec.
Import Js.

Inductive outcome (A : Type) :=
| Normal (a : A)
| Throw (v : value).
Arguments Normal {A} a.
Arguments Throw {A} v.

Section Monad.
(** [W] is the state threaded through a computation. *)
Context {W : Type}.

Definition M (A : Type) := W -> outcome A * W.

Definition ret {A} (a : A) : M A := fun w => (Normal a, w).

Definition bind {A B} (m : M A) (f : A -> M B) : M B :=
  fun w =>
    match m w with
    | (Normal a, w') => f a w'
    | (Throw e, w') => (Throw e, w')
    end.

Definition throw {A} (v : value) : M A := fun w => (Throw v, w).

(** [try { m } catch (e) { h e }]: the handler starts from the state the
    [try] block had reached when it threw. *)
Definition try_catch {A} (m : M A) (h : value -> M A) : M A :=
  fun w =>
    match m w with
    | (Normal a, w') => (Normal a, w')
    | (Throw e, w') => h e w'
    end.

Definition gets {A} (f : W -> A) : M A := fun w => (Normal (f w), w).

Definition modify (f : W -> W) : M unit := fun w => (Normal tt, f w).
End Monad.

Arguments M : clear implicits.

Declare Scope exec_scope.
Delimit Scope exec_scope with exec.
Notation "x <- c1 ;; c2" := (bind c1 (fun x => c2))
  (at level 100, c1 at next level, right associativity) : exec_scope.
Notation "c1 ;; c2" := (bind c1 (fun _ => c2))
  (at level 100, right associativity) : exec_scope.

End Exec.

(** ** The provider *)

Module Provider.
Import Js Exec.
Local Open Scope exec_scope.

(** [SelectorFunction]: called as [selector(allItems, ...dependencies)]. *)
Record SelectorFunction := {
  sel_ref : ref;
  sel_apply : Array -> list value -> outcome Array
}.

(** A subscriber callback [() => void]: it returns, or throws a value. *)
Record Callback := { cb_ref : ref; cb_throws : option value }.

(** The fields of [UseQueryDataProviderOptions] the provider reads. *)
Record UseQueryDataProviderOptions := {
  opt_placeholderCount : option Z;
  opt_showPlaceholdersWhileLoading : option bool;
  opt_showErrorItem : option bool;
  opt_enableChangeDetection : option bool
}.

Record Options := {
  placeholderCount : Z;
  showPlaceholdersWhileLoading : bool;
  showErrorItem : bool;
  enableChangeDetection : bool
}.

Record Provider := {
  rawItems : Array;
  selectedItems : Array;
  subscribers : list Callback;
  isLoading : bool;
  error : option Error;
  options : Options;
  currentSelector : option SelectorFunction;
  selectorDependencies : list value
}.

(** What a run leaves outside the provider's fields.  [CallApplySelector]
    and [CallNotify] mark the entry into the two private methods. *)
Inductive event :=
| CallApplySelector
| CallSelector (sel : ref) (allItems : Array) (dependencies : list value)
| CallNotify
| CallSubscriber (cb : ref)
| ConsoleError (label : string) (v : value).

Record world := { this : Provider; next_ref : ref; trace : list event }.

Definition Run := M world.

(** *** Field assignments *)

Definition set_rawItems (v : Array) (p : Provider) : Provider :=
  {| rawItems := v; selectedItems := selectedItems p;
     subscribers := subscribers p; isLoading := isLoading p;
     error := error p; options := options p;
     currentSelector := currentSelector p;
     selectorDependencies := selectorDependencies p |}.

Definition set_selectedItems (v : Array) (p : Provider) : Provider :=
  {| rawItems := rawItems p; selectedItems := v;
     subscribers := subscribers p; isLoading := isLoading p;
     error := error p; options := options p;
     currentSelector := currentSelector p;
     selectorDependencies := selectorDependencies p |}.

Definition set_subscribers (v : list Callback) (p : Provider) : Provider :=
  {| rawItems := rawItems p; selectedItems := selectedItems p;
     subscribers := v; isLoading := isLoading p;
     error := error p; options := options p;
     currentSelector := currentSelector p;
     selectorDependencies := selectorDependencies p |}.

Definition set_isLoading (v : bool) (p : Provider) : Provider :=
  {| rawItems := rawItems p; selectedItems := selectedItems p;
     subscribers := subscribers p; isLoading := v;
     error := error p; options := options p;
     currentSelector := currentSelector p;
     selectorDependencies := selectorDependencies p |}.

Definition set_error (v : option Error) (p : Provider) : Provider :=
  {| rawItems := rawItems p; selectedItems := selectedItems p;
     subscribers := subscribers p; isLoading := isLoading p;
     error := v; options := options p;
     currentSelector := currentSelector p;
     selectorDependencies := selectorDependencies p |}.

Definition set_currentSelector (v : option SelectorFunction) (p : Provider)
  : Provider :=
  {| rawItems := rawItems p; selectedItems := selectedItems p;
     subscribers := subscribers p; isLoading := isLoading p;
     error := error p; options := options p;
     currentSelector := v;
     selectorDependencies := selectorDependencies p |}.

Definition set_selectorDependencies (v : list value) (p : Provider)
  : Provider :=
  {| rawItems := rawItems p; selectedItems := selectedItems p;
     subscribers := subscribers p; isLoading := isLoading p;
     error := error p; options := options p;
     currentSelector := currentSelector p;
     selectorDependencies := v |}.

(** *** Primitive steps on the world *)

Definition get_this : Run Provider := gets this.

Definition assign (f : Provider -> Provider) : Run unit :=
  modify (fun w =>
    {| this := f (this w); next_ref := next_ref w; trace := trace w |}).

Definition emit (ev : event) : Run unit :=
  modify (fun w =>
    {| this := this w; next_ref := next_ref w; trace := trace w ++ [ev] |}).

(** Allocation of a fresh object reference. *)
Definition alloc : Run ref :=
  fun w =>
    (Normal (next_ref w),
     {| this := this w; next_ref := S (next_ref w); trace := trace w |}).

(** [new Error(msg)] *)
Definition new_Error (msg : string) : Run Error :=
  r <- alloc ;; ret {| err_ref := r; message := msg |}.

(** An array literal or a copy: a new array object holding [items]. *)
Definition new_Array (items : list ListItem) : Run Array :=
  r <- alloc ;; ret {| arr_ref := r; elements := items |}.

(** An object literal [{ k1: v1, ... }]. *)
Definition new_object (props : list (string * value)) : Run value :=
  r <- alloc ;; ret (VObject r (Literal props)).

(** An item literal [{ id, content }]. *)
Definition new_item (i : string) (c : value) : Run ListItem :=
  r <- alloc ;;
  ret {| item_ref := r; id := i; content := c; type := None |}.

(** [console.error(label, e)] *)
Definition console_error (label : string) (v : value) : Run unit :=
  emit (ConsoleError label v).

(** The message of the [TypeError] a property read on [null] or
    [undefined] raises (the wording is the engine's). *)
Definition TypeError_message (v : value) : string :=
  "Cannot read properties of " ++ to_string v ++ " (reading 'message')".

(** [(x as Error).message]: the cast does nothing at run time; the read
    raises a new [TypeError] on [null] and [undefined]. *)
Definition read_message (x : value) : Run value :=
  if nullish x then
    r <- alloc ;;
    throw (VObject r (ErrorObject (TypeError_message x)))
  else ret (get_prop x "message").

(** [Array.from({ length: len }, (_, i) => f i)]: a non-positive length
    gives the empty array. *)
Fixpoint from_loop {A} (f : Z -> Run A) (i : Z) (n : nat) : Run (list A) :=
  match n with
  | O => ret []
  | S n' => x <- f i ;; rest <- from_loop f (i + 1)%Z n' ;; ret (x :: rest)
  end.

Definition Array_from (len : Z) (f : Z -> Run ListItem) : Run Array :=
  r <- alloc ;;
  items <- from_loop f 0%Z (Z.to_nat len) ;;
  ret {| arr_ref := r; elements := items |}.

(** *** constructor *)

Definition default {A} (o : option A) (d : A) : A :=
  match o with Some a => a | None => d end.

Definition no_options : UseQueryDataProviderOptions :=
  {| opt_placeholderCount := None;
     opt_showPlaceholdersWhileLoading := None;
     opt_showErrorItem := None;
     opt_enableChangeDetection := None |}.

(** [new ReactQuerySelectorDataProvider(options)], the first free reference
    being [next]: the two field initialisers [[]] are two arrays. *)
Definition constructor (o : UseQueryDataProviderOptions) (next : ref) : world :=
  {| this :=
       {| rawItems := {| arr_ref := next; elements := [] |};
          selectedItems := {| arr_ref := S next; elements := [] |};
          subscribers := [];
          isLoading := false;
          error := None;
          options :=
            {| placeholderCount := default (opt_placeholderCount o) 10%Z;
               showPlaceholdersWhileLoading :=
                 default (opt_showPlaceholdersWhileLoading o) true;
               showErrorItem := default (opt_showErrorItem o) true;
               enableChangeDetection :=
                 default (opt_enableChangeDetection o) true |};
          currentSelector := None;
          selectorDependencies := [] |};
     next_ref := S (S next);
     trace := [] |}.

(** *** subscribe, notify *)

Definition same_callback (a b : Callback) : bool :=
  Nat.eqb (cb_ref a) (cb_ref b).

(** [Set.prototype.add]: insertion order, one entry per function. *)
Definition set_add (cb : Callback) (s : list Callback) : list Callback :=
  if existsb (same_callback cb) s then s else s ++ [cb].

(** [Set.prototype.delete] *)
Definition set_delete (cb : Callback) (s : list Callback) : list Callback :=
  filter (fun c => negb (same_callback cb c)) s.

Definition subscribe (callback : Callback) : Run unit :=
  assign (fun p => set_subscribers (set_add callback (subscribers p)) p).

(** The function [subscribe] returns. *)
Definition unsubscribe (callback : Callback) : Run unit :=
  assign (fun p => set_subscribers (set_delete callback (subscribers p)) p).

Definition call_subscriber (cb : Callback) : Run unit :=
  emit (CallSubscriber (cb_ref cb)) ;;
  match cb_throws cb with
  | Some e => throw e
  | None => ret tt
  end.

(** [set.forEach(callback => callback())] *)
Fixpoint forEach (cbs : list Callback) : Run unit :=
  match cbs with
  | [] => ret tt
  | cb :: rest => call_subscriber cb ;; forEach rest
  end.

Definition notify : Run unit :=
  emit CallNotify ;;
  p <- get_this ;;
  forEach (subscribers p).

(** *** applySelector *)

Definition call_selector (sel : SelectorFunction) (allItems : Array)
    (dependencies : list value) : Run Array :=
  emit (CallSelector (sel_ref sel) allItems dependencies) ;;
  match sel_apply sel allItems dependencies with
  | Normal a => ret a
  | Throw e => throw e
  end.

(** The [try] block. *)
Definition applySelector_try : Run unit :=
  p <- get_this ;;
  newSelectedItems <-
    match currentSelector p with
    | Some selector =>
        if (0 <? length_of (rawItems p))%nat
        then call_selector selector (rawItems p) (selectorDependencies p)
        else ret (rawItems p)
    | None => ret (rawItems p)
    end ;;
  assign (set_selectedItems newSelectedItems) ;;
  notify.

(** The [catch] block. *)
Definition applySelector_catch (selectorError : value) : Run unit :=
  console_error "Selector function error:" selectorError ;;
  empty <- new_Array [] ;;
  assign (set_selectedItems empty) ;;
  text <- read_message selectorError ;;
  e <- new_Error ("Selector error: " ++ to_string text) ;;
  assign (set_error (Some e)) ;;
  notify.

Definition applySelector : Run unit :=
  emit CallApplySelector ;;
  try_catch applySelector_try applySelector_catch.

(** *** updateRawData *)

(** The value of [hasRawDataChanged] when the final [if] tests it. *)
Definition hasRawDataChanged (p : Provider) (items : Array)
    (isLoading' : bool) (error' : option Error) : bool :=
  let hasRawDataChanged := false in
  let hasRawDataChanged :=
    if negb (Bool.eqb (isLoading p) isLoading') || error_neq (error p) error'
    then true else hasRawDataChanged in
  if enableChangeDetection (options p) then
    if negb (length_of (rawItems p) =? length_of items)%nat
       || ((0 <? length_of items)%nat
           && (opt_string_neq (id_at (rawItems p) 0) (id_at items 0)
               || opt_string_neq
                    (id_at (rawItems p) (Z.of_nat (length_of (rawItems p)) - 1))
                    (id_at items (Z.of_nat (length_of items) - 1))))
    then true else hasRawDataChanged
  else true.

Definition updateRawData (items : Array) (isLoading' : bool)
    (error' : option Error) : Run unit :=
  p <- get_this ;;
  if hasRawDataChanged p items isLoading' error' then
    assign (set_rawItems items) ;;
    assign (set_isLoading isLoading') ;;
    assign (set_error error') ;;
    applySelector
  else ret tt.

(** *** updateSelector *)

(** [a !== b] on [SelectorFunction | null]. *)
Definition selector_neq (a b : option SelectorFunction) : bool :=
  match a, b with
  | None, None => false
  | Some x, Some y => negb (Nat.eqb (sel_ref x) (sel_ref y))
  | _, _ => true
  end.

(** [a[i]] on a dependency array. *)
Definition dep_at (a : list value) (i : nat) : value := nth i a VUndefined.

(** The [for] loop of [shallowEqual], from index [i], [n] rounds to go. *)
Fixpoint shallowEqual_loop (a b : list value) (i n : nat) : bool :=
  match n with
  | O => true
  | S n' =>
      if strict_neq (dep_at a i) (dep_at b i) then false
      else shallowEqual_loop a b (S i) n'
  end.

Definition shallowEqual (a b : list value) : bool :=
  if negb (List.length a =? List.length b)%nat then false
  else shallowEqual_loop a b 0 (List.length a).

(** The copy [[...dependencies]] holds the same values in the same order;
    the dependency array is only ever read position by position. *)
Definition updateSelector (selector : option SelectorFunction)
    (dependencies : list value) : Run unit :=
  p <- get_this ;;
  let selectorChanged := selector_neq (currentSelector p) selector in
  let dependenciesChanged :=
    negb (shallowEqual (selectorDependencies p) dependencies) in
  if selectorChanged || dependenciesChanged then
    assign (set_currentSelector selector) ;;
    assign (set_selectorDependencies dependencies) ;;
    applySelector
  else ret tt.

(** *** getData, getTotalCount, getItemById *)

Definition placeholder (startIndex i : Z) : Run ListItem :=
  c <- new_object [("__isPlaceholder", VBool true);
                   ("index", VNumber (Int (startIndex + i)))] ;;
  new_item ("__placeholder-" ++ string_of_Z (startIndex + i)) c.

Definition error_item (e : Error) : Run ListItem :=
  c <- new_object [("__isError", VBool true);
                   ("error", VString (message e));
                   ("originalError", error_value e)] ;;
  new_item "__error-item" c.

(** The guard of the loading branch. *)
Definition loading_branch (p : Provider) : bool :=
  isLoading p
  && (length_of (selectedItems p) =? 0)%nat
  && showPlaceholdersWhileLoading (options p).

(** The guard of the error branch, with the error it found ([this.error]
    is truthy when it is an [Error] object). *)
Definition error_branch (p : Provider) : option Error :=
  match error p with
  | Some e =>
      if (length_of (selectedItems p) =? 0)%nat && showErrorItem (options p)
      then Some e else None
  | None => None
  end.

Definition getData (startIndex endIndex : Z) : Run Array :=
  p <- get_this ;;
  if loading_branch p then
    let placeholderCount :=
      Z.min (endIndex - startIndex + 1) (placeholderCount (options p)) in
    Array_from placeholderCount (placeholder startIndex)
  else
    match error_branch p with
    | Some e => it <- error_item e ;; new_Array [it]
    | None =>
        let len := Z.of_nat (length_of (selectedItems p)) in
        let safeStart := Z.max 0 startIndex in
        let safeEnd := Z.min (len - 1) endIndex in
        if (safeStart >? safeEnd)%Z || (safeStart >=? len)%Z then new_Array []
        else new_Array (slice (elements (selectedItems p)) safeStart (safeEnd + 1))
    end.

Definition getTotalCount : Run Z :=
  p <- get_this ;;
  if loading_branch p then ret (placeholderCount (options p))
  else
    match error_branch p with
    | Some _ => ret 1%Z
    | None => ret (Z.of_nat (length_of (selectedItems p)))
    end.

Definition getItemById (i : string) : Run (option ListItem) :=
  p <- get_this ;;
  if String.prefix "__placeholder-" i || String.eqb i "__error-item"
  then ret None
  else ret (find (fun item => String.eqb (id item) i)
                 (elements (selectedItems p))).

Definition getRawData : Run Array := gets (fun w => rawItems (this w)).

Definition getSelectedData : Run Array := gets (fun w => selectedItems (this w)).

(** *** getCurrentItemIds *)

(** [new Set(xs)] on strings, by its entries: insertion order, one entry
    per value. *)
Definition Set_add (x : string) (s : list string) : list string :=
  if existsb (String.eqb x) s then s else s ++ [x].

Definition Set_of (xs : list string) : list string :=
  fold_left (fun s x => Set_add x s) xs [].

Definition getCurrentItemIds : Run (list string) :=
  p <- get_this ;;
  ret (Set_of (map id (elements (selectedItems p)))).

End Provider.

(** ** The selector library *)

Module Selectors.
Import Js Exec Provider.
Local Open Scope exec_scope.

(** A library selector allocates the array it returns: it runs on the next
    free reference, and may throw. *)
Definition Alloc := M ref.

Definition fresh_ref : Alloc ref := fun next => (Normal next, S next).

Definition Selector := Array -> list value -> Alloc Array.

(** The filter callback [item => item.type && typeSet.has(item.type)],
    coerced to a boolean: a missing or empty [type] is falsy. *)
Definition type_in (typeSet : list string) (item : ListItem) : bool :=
  match type item with
  | Some t => negb (String.eqb t "") && existsb (String.eqb t) typeSet
  | None => false
  end.

(** [filterByTypes(types)]; the selector it returns ignores dependencies. *)
Definition filterByTypes (types : list string) : Selector :=
  fun allItems _ =>
    if (List.length types =? 0)%nat then ret allItems
    else
      let typeSet := Set_of types in
      r <- fresh_ref ;;
      ret {| arr_ref := r;
             elements := filter (type_in typeSet) (elements allItems) |}.

(** [selectors.reduce((filtered, selector) => selector(filtered,
    ...dependencies), allItems)] *)
Fixpoint reduce (selectors : list Selector) (filtered : Array)
    (dependencies : list value) : Alloc Array :=
  match selectors with
  | [] => ret filtered
  | selector :: rest =>
      next <- selector filtered dependencies ;;
      reduce rest next dependencies
  end.

(** [combine(...selectors)] *)
Definition combine (selectors : list Selector) : Selector :=
  fun allItems dependencies => reduce selectors allItems dependencies.

End Selectors.

(** ** The hook: default transformer and provider update *)

Module Hook.
Import Js Exec Provider Selectors.
Local Open Scope exec_scope.

(** What [defaultTransformer] builds: [{ id, content, type }], where [type]
    is whatever truthy value the datum carries, or [undefined]. *)
Record Transformed := {
  t_ref : ref;
  t_id : string;
  t_content : value;
  t_type : value
}.

(** Truthiness of a value. *)
Definition truthy (v : value) : bool :=
  match v with
  | VUndefined | VNull => false
  | VBool b => b
  | VNumber NaN => false
  | VNumber (Int z) => negb (z =? 0)%Z
  | VString s => negb (String.eqb s "")
  | VObject _ _ => true
  end.

(** [v?.[k]] *)
Definition opt_get (v : value) (k : string) : value :=
  match v with
  | VUndefined | VNull => VUndefined
  | _ => get_prop v k
  end.

(** [a || b] on [string | undefined]. *)
Definition or_string (a b : option string) : option string :=
  match a with
  | Some s => if String.eqb s "" then b else a
  | None => b
  end.

(** [a || b] on values. *)
Definition or_value (a b : value) : value := if truthy a then a else b.

Section DefaultTransformer.
(** [toString()] of an object is the object's own business. *)
Variable object_toString : ref -> object -> string.

(** [v?.toString()] *)
Definition opt_toString (v : value) : option string :=
  match v with
  | VUndefined | VNull => None
  | VBool true => Some "true"
  | VBool false => Some "false"
  | VNumber NaN => Some "NaN"
  | VNumber (Int z) => Some (string_of_Z z)
  | VString s => Some s
  | VObject r o => Some (object_toString r o)
  end.

(** The [id] the callback of [data.map] computes for [item] at [index]. *)
Definition default_id (item : value) (index : nat) : string :=
  match
    or_string (opt_toString (opt_get item "id"))
      (or_string (opt_toString (opt_get item "key"))
         (or_string (opt_toString (opt_get item "_id"))
            (Some ("item-" ++ string_of_Z (Z.of_nat index)))))
  with
  | Some s => s
  | None => ""
  end.

Definition default_type (item : value) : value :=
  or_value (opt_get item "type")
    (or_value (opt_get item "category") VUndefined).

(** The loop of [data.map((item, index) => ...)], from [index]. *)
Fixpoint map_from (data : list value) (index : nat)
  : Alloc (list Transformed) :=
  match data with
  | [] => ret []
  | item :: rest =>
      r <- fresh_ref ;;
      out <- map_from rest (S index) ;;
      ret ({| t_ref := r; t_id := default_id item index;
              t_content := item; t_type := default_type item |} :: out)
  end.

Definition defaultTransformer (data : list value)
  : Alloc (ref * list Transformed) :=
  r <- fresh_ref ;;
  out <- map_from data 0 ;;
  ret (r, out).

End DefaultTransformer.

(** A transformer as the effect sees it: the item array, or an exception. *)
Definition Transformer := list value -> outcome Array.

Definition call_transformer (transformer : Transformer) (data : list value)
  : Run Array :=
  match transformer data with
  | Normal a => ret a
  | Throw e => throw e
  end.

(** The effect of [useQueryDataProvider] that pushes the query state into
    the provider; [data] is [None] for [undefined]. *)
Definition updateProviderEffect (transformer : Transformer)
    (data : option (list value)) (isLoading isRefetching : bool)
    (error : option Error) : Run unit :=
  try_catch
    (match data with
     | Some d =>
         transformedData <- call_transformer transformer d ;;
         updateRawData transformedData (isLoading || isRefetching) error
     | None =>
         match error with
         | Some e =>
             empty <- new_Array [] ;;
             updateRawData empty false (Some e)
         | None =>
             if isLoading then
               empty <- new_Array [] ;;
               updateRawData empty true None
             else ret tt
         end
     end)
    (fun transformError =>
       console_error "Data transformation error:" transformError ;;
       empty <- new_Array [] ;;
       text <- read_message transformError ;;
       e <- new_Error ("Data transformation failed: " ++ to_string text) ;;
       updateRawData empty false (Some e)).

End Hook.

(** ** Notions the properties are stated with *)

Module Props.
Import Js Exec Provider.

Definition exec {A} (m : Run A) (w : world) : world := snd (m w).
Definition eval {A} (m : Run A) (w : world) : outcome A := fst (m w).

(** *** Reading a trace *)

Definition is_notify (ev : event) : bool :=
  match ev with CallNotify => true | _ => false end.

Definition is_recompute (ev : event) : bool :=
  match ev with CallApplySelector => true | _ => false end.

(** Number of calls of [notify] and of [applySelector] in a trace. *)
Definition notifications (t : list event) : nat :=
  List.length (filter is_notify t).

Definition recomputations (t : list event) : nat :=
  List.length (filter is_recompute t).

(** *** Subscribers *)

(** The callbacks one [notify] reaches: all of them up to and including the
    first that throws. *)
Fixpoint called (cbs : list Callback) : list ref :=
  match cbs with
  | [] => []
  | cb :: rest =>
      cb_ref cb ::
      match cb_throws cb with Some _ => [] | None => called rest end
  end.

Fixpoint first_throw (cbs : list Callback) : option value :=
  match cbs with
  | [] => None
  | cb :: rest =>
      match cb_throws cb with Some e => Some e | None => first_throw rest end
  end.

Definition outcome_of (o : option value) : outcome unit :=
  match o with Some e => Throw e | None => Normal tt end.

Definition notify_events (p : Provider) : list event :=
  CallNotify :: map CallSubscriber (called (subscribers p)).

(** *** Recomputation *)

(** The selector call [applySelector] makes from [p], if any. *)
Definition selector_call (p : Provider) : option SelectorFunction :=
  match currentSelector p with
  | Some selector =>
      if (0 <? length_of (rawItems p))%nat then Some selector else None
  | None => None
  end.

(** The recomputation fails: the selector is called and throws [exn]. *)
Definition selector_throws (p : Provider) (exn : value) : Prop :=
  exists selector,
    currentSelector p = Some selector /\
    elements (rawItems p) <> [] /\
    sel_apply selector (rawItems p) (selectorDependencies p) = Throw exn.

(** The [try] block of [applySelector] runs to its end from [p]: the
    selector, if it is called, returns, and no subscriber throws. *)
Definition recomputation_completes (p : Provider) : Prop :=
  (forall selector, selector_call p = Some selector ->
     exists a,
       sel_apply selector (rawItems p) (selectorDependencies p) = Normal a)
  /\ first_throw (subscribers p) = None.

(** The world with [evs] appended to its trace. *)
Definition logged (evs : list event) (w : world) : world :=
  {| this := this w; next_ref := next_ref w; trace := trace w ++ evs |}.

(** *** updateRawData *)






(** The world once [updateRawData] has assigned its three fields. *)
Definition stored (items : Array) (l : bool) (e : option Error) (w : world)
  : world :=
  {| this := set_error e (set_isLoading l (set_rawItems items (this w)));
     next_ref := next_ref w;
     trace := trace w |}.

(** The text [`${x.message}`] of a thrown value [x] that is neither [null]
    nor [undefined]: the message of an [Error], ["undefined"] for a thrown
    string or number. *)
Definition thrown_text (x : value) : string :=
  to_string (get_prop x "message").

(** The recomputation from [p] calls the selector, and the selector throws
    [null] or [undefined]. *)
Definition selector_throws_nullish (p : Provider) : Prop :=
  exists exn, selector_throws p exn /\ nullish exn = true.

(** The outcome is a new [TypeError], the one reading [.message] of [null]
    or [undefined] raises, leaving the method. *)
Definition raises_TypeError {A} (o : outcome A) : Prop :=
  exists r x,
    nullish x = true
    /\ o = Throw (VObject r (ErrorObject (TypeError_message x))).



(** *** updateSelector *)



Definition deps_differ (a b : list value) : Prop :=
  List.length a <> List.length b \/
  exists i, (i < List.length a)%nat /\
    strict_eq (dep_at a i) (dep_at b i) = false.

Definition selector_stored (s : option SelectorFunction) (d : list value)
    (w : world) : world :=
  {| this := set_selectorDependencies d (set_currentSelector s (this w));
     next_ref := next_ref w;
     trace := trace w |}.

(** *** getData *)

Definition placeholders_apply (p : Provider) : Prop :=
  isLoading p = true
  /\ elements (selectedItems p) = []
  /\ showPlaceholdersWhileLoading (options p) = true.

Definition error_item_applies (p : Provider) : Prop :=
  error p <> None
  /\ elements (selectedItems p) = []
  /\ showErrorItem (options p) = true.

(** The placeholder of absolute index [k], as [getData] builds it. *)
Definition is_placeholder (k : Z) (it : ListItem) : Prop :=
  id it = "__placeholder-" ++ string_of_Z k
  /\ type it = None
  /\ exists r, content it =
       VObject r (Literal [("__isPlaceholder", VBool true);
                           ("index", VNumber (Int k))]).

(** The error item of error [e], as [getData] builds it. *)
Definition is_error_item (e : Error) (it : ListItem) : Prop :=
  id it = "__error-item"
  /\ type it = None
  /\ exists r, content it =
       VObject r (Literal [("__isError", VBool true);
                           ("error", VString (message e));
                           ("originalError", error_value e)]).

(** The placeholder and the error item as the specification words them:
    [{ isPlaceholder: true, index }] and
    [{ isError: true, message, originalError }]. *)
Definition placeholder_as_specified (k : Z) (it : ListItem) : Prop :=
  id it = "__placeholder-" ++ string_of_Z k
  /\ get_prop (content it) "isPlaceholder" = VBool true
  /\ get_prop (content it) "index" = VNumber (Int k).

Definition error_item_as_specified (e : Error) (it : ListItem) : Prop :=
  id it = "__error-item"
  /\ get_prop (content it) "isError" = VBool true
  /\ get_prop (content it) "message" = VString (message e)
  /\ get_prop (content it) "originalError" = error_value e.

(** A run that only reads the provider: it may allocate the objects it
    returns, and nothing else. *)
Definition reads_only (w w' : world) : Prop :=
  this w' = this w /\ trace w' = trace w.

(** [getData(s, e)] returns [min(e - s + 1, placeholderCount)] items when
    that is positive and none otherwise, the [i]-th of them of the given
    shape at absolute index [s + i]. *)
Definition placeholders_returned (shape : Z -> ListItem -> Prop)
    (w : world) (s e : Z) : Prop :=
  let n := Z.min (e - s + 1) (placeholderCount (options (this w))) in
  exists arr w',
    getData s e w = (Normal arr, w')
    /\ reads_only w w'
    /\ length_of arr = Z.to_nat n
    /\ forall i, (0 <= i < n)%Z ->
         exists it, index (elements arr) i = Some it /\ shape (s + i)%Z it.

(** [getData(s, e)] returns one item, of the given shape for the stored
    error. *)
Definition error_item_returned (shape : Error -> ListItem -> Prop)
    (w : world) (s e : Z) : Prop :=
  exists err arr w' it,
    error (this w) = Some err
    /\ getData s e w = (Normal arr, w')
    /\ reads_only w w'
    /\ elements arr = [it]
    /\ shape err it.

(** *** Subscribers, lookups and the library selectors *)

(** No callback of the list throws. *)
Definition no_throw (cbs : list Callback) : Prop :=
  Forall (fun cb => cb_throws cb = None) cbs.

(** The callback is not in the set. *)
Definition not_subscribed (cb : Callback) (p : Provider) : Prop :=
  Forall (fun c => cb_ref c <> cb_ref cb) (subscribers p).


Definition derived (w : world) : list ListItem :=
  elements (selectedItems (this w)).

(** [r] is the first item of [l] with id [i], or [None] when there is
    none. *)
Definition first_with_id (i : string) (l : list ListItem)
    (r : option ListItem) : Prop :=
  match r with
  | Some it =>
      exists before after,
        l = (before ++ it :: after)%list
        /\ id it = i
        /\ Forall (fun x => id x <> i) before
  | None => Forall (fun x => id x <> i) l
  end.

(** The item has a non-empty type, listed in [types]. *)
Definition typed_in (types : list string) (it : ListItem) : Prop :=
  exists t, type it = Some t /\ t <> "" /\ In t types.


(** Every subscriber call among [evs] goes to a reference of [refs]. *)
Definition only_calls (refs : list ref) (evs : list event) : Prop :=
  forall r, In (CallSubscriber r) evs -> In r refs.

(** The items a library selector returned; none if it threw. *)
Definition returned {W : Type} (r : outcome Array * W) : list ListItem :=
  match fst r with
  | Normal a => elements a
  | Throw _ => []
  end.

(** The datum has no usable [id], [key] or [_id]: each is missing, or its
    string is empty. *)
Definition lacks_id (object_toString : ref -> object -> string)
    (item : value) : Prop :=
  Hook.or_string (Hook.opt_toString object_toString (Hook.opt_get item "id"))
    (Hook.or_string
       (Hook.opt_toString object_toString (Hook.opt_get item "key"))
       (Hook.or_string
          (Hook.opt_toString object_toString (Hook.opt_get item "_id"))
          None))
  = None.

(** The world after one allocation. *)
Definition after_alloc (w : world) : world :=
  {| this := this w; next_ref := S (next_ref w); trace := trace w |}.

End Props.

(** ** Sample objects and provider states *)

Module Sample.
Import Js Exec Provider Props.

(** Objects of the caller live below reference 200; the provider is
    constructed with 200 as its first free reference. *)
Definition item (r : ref) (i : string) : ListItem :=
  {| item_ref := r; id := i; content := VObject (S r) Opaque; type := None |}.

Definition item_a := item 100 "a".
Definition item_b := item 102 "b".
Definition item_c := item 104 "c".

Definition no_items : Array := {| arr_ref := 110; elements := [] |}.
Definition items_abc : Array :=
  {| arr_ref := 112; elements := [item_a; item_b; item_c] |}.

Definition boom : value := error_value {| err_ref := 120; message := "boom" |}.
Definition failed : Error := {| err_ref := 121; message := "Network down" |}.

(** A selector that throws, and one that keeps the first item. *)
Definition throwing_selector : SelectorFunction :=
  {| sel_ref := 130; sel_apply := fun _ _ => Throw boom |}.

Definition first_only : SelectorFunction :=
  {| sel_ref := 131;
     sel_apply := fun allItems _ =>
       Normal {| arr_ref := 132; elements := firstn 1 (elements allItems) |} |}.

Definition listener : Callback := {| cb_ref := 140; cb_throws := None |}.
Definition throwing_listener : Callback :=
  {| cb_ref := 141; cb_throws := Some boom |}.

Definition five_placeholders : UseQueryDataProviderOptions :=
  {| opt_placeholderCount := Some 5%Z;
     opt_showPlaceholdersWhileLoading := None;
     opt_showErrorItem := None;
     opt_enableChangeDetection := None |}.

(** A new provider with one well-behaved subscriber. *)
Definition fresh : world := exec (subscribe listener) (constructor five_placeholders 200).

(** Loading, nothing fetched yet. *)
Definition loading : world := exec (updateRawData no_items true None) fresh.

(** The source failed. *)
Definition errored : world := exec (updateRawData no_items false (Some failed)) fresh.

(** A refetch after a failure: loading and error at once. *)
Definition loading_errored : world :=
  exec (updateRawData no_items true (Some failed)) fresh.

(** Three items, no selector. *)
Definition loaded : world := exec (updateRawData items_abc false None) fresh.

(** A provider whose selector throws. *)
Definition with_throwing_selector : world :=
  exec (updateSelector (Some throwing_selector) []) fresh.

(** A provider without selector, one of whose subscribers throws. *)
Definition with_throwing_listener : world :=
  exec (subscribe throwing_listener) (constructor five_placeholders 200).

(** Items with a type, for the library selectors. *)
Definition typed (r : ref) (i : string) (t : option string) : ListItem :=
  {| item_ref := r; id := i; content := VObject (S r) Opaque; type := t |}.

Definition news := typed 150 "n1" (Some "news").
Definition blog := typed 152 "b1" (Some "blog").
Definition untyped := typed 154 "u1" None.
Definition blank := typed 156 "e1" (Some "").

Definition mixed : Array :=
  {| arr_ref := 160; elements := [news; untyped; blog; blank; news] |}.

Definition second_listener : Callback := {| cb_ref := 142; cb_throws := None |}.

Definition constant_transformer : Hook.Transformer := fun _ => Normal items_abc.

(** A provider whose selector keeps the first item, holding three items. *)
Definition selecting : world :=
  exec (updateSelector (Some first_only) []) loaded.

(** A provider whose selector threw on its three items. *)
Definition broken : world :=
  exec (updateRawData items_abc false None) with_throwing_selector.


(** A selector that throws [null], and a provider that has it. *)
Definition null_throwing_selector : SelectorFunction :=
  {| sel_ref := 133; sel_apply := fun _ _ => Throw VNull |}.

Definition with_null_throwing_selector : world :=
  exec (updateSelector (Some null_throwing_selector) []) fresh.



(** Library selectors that throw, or keep nothing. *)
Definition throwing_library_selector : Selectors.Selector :=
  fun _ _ next => (Throw boom, next).

(** Data as a query returns it: objects with and without ids. *)
Definition datum (r : ref) (props : list (string * value)) : value :=
  VObject r (Literal props).

Definition data : list value :=
  [datum 170 [("id", VNumber (Int 0)); ("type", VString "news")];
   datum 171 [("key", VString "k7"); ("category", VString "blog")];
   datum 172 [("id", VString ""); ("title", VString "untitled")];
   VString "bare"].

Definition plain_toString (_ : ref) (_ : object) : string := "[object Object]".

(** What the default transformer makes of [data], allocating from 300. *)
Definition transformed_0 : Hook.Transformed :=
  {| Hook.t_ref := 301; Hook.t_id := "0";
     Hook.t_content :=
       datum 170 [("id", VNumber (Int 0)); ("type", VString "news")];
     Hook.t_type := VString "news" |}.

Definition transformed_1 : Hook.Transformed :=
  {| Hook.t_ref := 302; Hook.t_id := "k7";
     Hook.t_content :=
       datum 171 [("key", VString "k7"); ("category", VString "blog")];
     Hook.t_type := VString "blog" |}.

Definition transformed_2 : Hook.Transformed :=
  {| Hook.t_ref := 303; Hook.t_id := "item-2";
     Hook.t_content :=
       datum 172 [("id", VString ""); ("title", VString "untitled")];
     Hook.t_type := VUndefined |}.

Definition transformed_3 : Hook.Transformed :=
  {| Hook.t_ref := 304; Hook.t_id := "item-3";
     Hook.t_content := VString "bare";
     Hook.t_type := VUndefined |}.

End Sample.

(** ** How the private methods run *)

Module Runs.
Import Js Exec Provider Props.
Local Open Scope exec_scope.

Ltac unfold_run :=
  cbv beta iota delta [bind ret throw try_catch gets modify] in *.

Ltac step :=
  cbv beta iota delta
    [bind ret throw try_catch gets modify get_this assign emit alloc
     new_Error new_Array new_object new_item console_error read_message]
    in *;
  cbn [fst snd this next_ref trace] in *.

Lemma world_eta (w : world) :
  {| this := this w; next_ref := next_ref w; trace := trace w |} = w.
Proof. destruct w; reflexivity. Qed.

Lemma forEach_run (cbs : list Callback) (w : world) :
  forEach cbs w =
  (outcome_of (first_throw cbs),
   {| this := this w; next_ref := next_ref w;
      trace := trace w ++ map CallSubscriber (called cbs) |}).
Proof.
  revert w. induction cbs as [|cb rest IH]; intros w; cbn [forEach].
  - step. cbn. rewrite app_nil_r, world_eta. reflexivity.
  - unfold call_subscriber. step.
    cbn [first_throw called map].
    destruct (cb_throws cb) as [e|]; cbn.
    + reflexivity.
    + rewrite IH. cbn. rewrite <- app_assoc. reflexivity.
Qed.

Lemma notify_run (w : world) :
  notify w =
  (outcome_of (first_throw (subscribers (this w))),
   {| this := this w; next_ref := next_ref w;
      trace := trace w ++ notify_events (this w) |}).
Proof.
  unfold notify. step. rewrite forEach_run. cbn.
  unfold notify_events. rewrite <- app_assoc. reflexivity.
Qed.

(** The [try] block, when no selector is called: pass-through. *)
Lemma try_pass_through (w : world) :
  selector_call (this w) = None ->
  applySelector_try w =
  (outcome_of (first_throw (subscribers (this w))),
   {| this := set_selectedItems (rawItems (this w)) (this w);
      next_ref := next_ref w;
      trace := trace w ++ notify_events (this w) |}).
Proof.
  intros Hcall. unfold applySelector_try, selector_call in *. step.
  destruct (currentSelector (this w)) as [sel|].
  - destruct (0 <? length_of (rawItems (this w)))%nat; [discriminate|].
    unfold_run. rewrite notify_run. reflexivity.
  - unfold_run. rewrite notify_run. reflexivity.
Qed.

(** The [try] block, when the selector is called and returns. *)
Lemma try_selected (w : world) (sel : SelectorFunction) (a : Array) :
  selector_call (this w) = Some sel ->
  sel_apply sel (rawItems (this w)) (selectorDependencies (this w)) = Normal a ->
  applySelector_try w =
  (outcome_of (first_throw (subscribers (this w))),
   {| this := set_selectedItems a (this w);
      next_ref := next_ref w;
      trace := trace w
               ++ CallSelector (sel_ref sel) (rawItems (this w))
                    (selectorDependencies (this w))
               :: notify_events (this w) |}).
Proof.
  intros Hcall Hsel. unfold applySelector_try, selector_call in *. step.
  destruct (currentSelector (this w)) as [s|]; [|discriminate].
  destruct (0 <? length_of (rawItems (this w)))%nat; [|discriminate].
  injection Hcall as ->. unfold call_selector. step. rewrite Hsel.
  unfold_run. rewrite notify_run. cbn. rewrite <- app_assoc. reflexivity.
Qed.

(** The [try] block, when the selector is called and throws. *)
Lemma try_thrown (w : world) (sel : SelectorFunction) (exn : value) :
  selector_call (this w) = Some sel ->
  sel_apply sel (rawItems (this w)) (selectorDependencies (this w)) = Throw exn ->
  applySelector_try w =
  (Throw exn,
   {| this := this w;
      next_ref := next_ref w;
      trace := trace w
               ++ [CallSelector (sel_ref sel) (rawItems (this w))
                     (selectorDependencies (this w))] |}).
Proof.
  intros Hcall Hsel. unfold applySelector_try, selector_call in *. step.
  destruct (currentSelector (this w)) as [s|]; [|discriminate].
  destruct (0 <? length_of (rawItems (this w)))%nat; [|discriminate].
  injection Hcall as ->. unfold call_selector. step. rewrite Hsel.
  reflexivity.
Qed.

(** The [catch] block, for a thrown value that is neither [null] nor
    [undefined]. *)
Lemma catch_run (exn : value) (w : world) :
  nullish exn = false ->
  applySelector_catch exn w =
  (outcome_of (first_throw (subscribers (this w))),
   {| this :=
        set_error
          (Some {| err_ref := S (next_ref w);
                   message := "Selector error: " ++ thrown_text exn |})
          (set_selectedItems {| arr_ref := next_ref w; elements := [] |}
             (this w));
      next_ref := S (S (next_ref w));
      trace := trace w
               ++ ConsoleError "Selector function error:" exn
               :: notify_events (this w) |}).
Proof.
  intros Hnull. unfold applySelector_catch. step. rewrite Hnull. step.
  rewrite notify_run. cbn. rewrite <- app_assoc. reflexivity.
Qed.

(** The [catch] block, for a thrown [null] or [undefined]: the derived
    sequence has been emptied when the read of [.message] raises. *)
Lemma catch_run_nullish (exn : value) (w : world) :
  nullish exn = true ->
  applySelector_catch exn w =
  (Throw (VObject (S (next_ref w)) (ErrorObject (TypeError_message exn))),
   {| this :=
        set_selectedItems {| arr_ref := next_ref w; elements := [] |}
          (this w);
      next_ref := S (S (next_ref w));
      trace := trace w ++ [ConsoleError "Selector function error:" exn] |}).
Proof.
  intros Hnull. unfold applySelector_catch. step. rewrite Hnull. step.
  reflexivity.
Qed.

Lemma applySelector_unfold (w : world) :
  applySelector w =
  try_catch applySelector_try applySelector_catch
    (logged [CallApplySelector] w).
Proof. reflexivity. Qed.

(** Case analysis of one run of [applySelector] from [w]: on the selector
    call, on what the selector returns and on the subscribers. *)
Ltac apply_cases w :=
  rewrite (applySelector_unfold w);
  cbv beta iota delta [try_catch];
  let Hcall := fresh "Hcall" in
  let Hsel := fresh "Hsel" in
  let Hsub := fresh "Hsub" in
  destruct (selector_call (this (logged [CallApplySelector] w)))
    as [?sel|] eqn:Hcall;
  [ destruct (sel_apply sel (rawItems (this (logged [CallApplySelector] w)))
                (selectorDependencies (this (logged [CallApplySelector] w))))
      as [?a|?exn] eqn:Hsel;
    [ rewrite (try_selected _ _ _ Hcall Hsel)
    | rewrite (try_thrown _ _ _ Hcall Hsel) ]
  | rewrite (try_pass_through _ Hcall) ];
  cbn [this next_ref trace logged] in *;
  try (destruct (first_throw (subscribers (this w))) as [?thrown|] eqn:Hsub;
       cbn [outcome_of]);
  try (match goal with
       | |- context [applySelector_catch ?x ?w0] =>
           let Hnull := fresh "Hnull" in
           destruct (nullish x) eqn:Hnull;
           [ rewrite (catch_run_nullish x w0 Hnull)
           | rewrite (catch_run x w0 Hnull) ]
       end);
  cbn [this next_ref trace logged fst snd exec eval
       rawItems selectedItems subscribers isLoading error options
       currentSelector selectorDependencies
       set_selectedItems set_error] in *.

Lemma notifications_app (t u : list event) :
  notifications (t ++ u) = notifications t + notifications u.
Proof. unfold notifications. rewrite filter_app, length_app. reflexivity. Qed.

Lemma recomputations_app (t u : list event) :
  recomputations (t ++ u) = recomputations t + recomputations u.
Proof. unfold recomputations. rewrite filter_app, length_app. reflexivity. Qed.

Lemma notifications_subscribers (l : list ref) :
  notifications (map CallSubscriber l) = 0.
Proof. induction l; [reflexivity | assumption]. Qed.

Lemma recomputations_subscribers (l : list ref) :
  recomputations (map CallSubscriber l) = 0.
Proof. induction l; [reflexivity | assumption]. Qed.

Lemma notifications_notify (p : Provider) :
  notifications (notify_events p) = 1.
Proof.
  unfold notify_events. change (notifications (CallNotify :: ?l))
    with (S (notifications l)).
  rewrite notifications_subscribers. reflexivity.
Qed.

Lemma recomputations_notify (p : Provider) :
  recomputations (notify_events p) = 0.
Proof. unfold notify_events. apply recomputations_subscribers. Qed.

Ltac count_events :=
  repeat first
    [ rewrite notifications_app | rewrite recomputations_app
    | rewrite notifications_notify | rewrite recomputations_notify
    | match goal with
      | |- context [notifications (?ev :: ?l)] =>
          lazymatch l with
          | [] => fail
          | _ => change (notifications (ev :: l))
                   with (notifications [ev] + notifications l)
          end
      | |- context [recomputations (?ev :: ?l)] =>
          lazymatch l with
          | [] => fail
          | _ => change (recomputations (ev :: l))
                   with (recomputations [ev] + recomputations l)
          end
      end ];
  cbn [notifications recomputations filter is_notify is_recompute
       List.length Nat.add].

Lemma selector_call_throws (p : Provider) (sel : SelectorFunction)
    (exn : value) :
  selector_call p = Some sel ->
  sel_apply sel (rawItems p) (selectorDependencies p) = Throw exn ->
  selector_throws p exn.
Proof.
  unfold selector_call, selector_throws, length_of.
  destruct (currentSelector p) as [s|]; [|discriminate].
  destruct (elements (rawItems p)) as [|x l] eqn:El; [discriminate|].
  cbn. intros [= ->] Hsel. exists sel. repeat split; [discriminate | exact Hsel].
Qed.

Lemma selector_throws_inv (p : Provider) (exn : value) :
  selector_throws p exn ->
  exists sel,
    selector_call p = Some sel
    /\ sel_apply sel (rawItems p) (selectorDependencies p) = Throw exn.
Proof.
  intros (sel & Hcur & Hne & Hthrow). exists sel. split; [|exact Hthrow].
  unfold selector_call, length_of. rewrite Hcur.
  destruct (elements (rawItems p)); [congruence | reflexivity].
Qed.

(** In a case where the selector does not throw [null] or [undefined]. *)
Ltac not_nullish_case Hcall Hsel :=
  let exn := fresh "exn" in
  let Ht := fresh "Ht" in
  let Hn := fresh "Hn" in
  let s := fresh "s" in
  let Hc := fresh "Hc" in
  let Hs := fresh "Hs" in
  intros (exn & Ht & Hn); exfalso;
  destruct (selector_throws_inv _ _ Ht) as (s & Hc & Hs);
  rewrite Hcall in Hc;
  first [ discriminate
        | injection Hc as <-; rewrite Hsel in Hs;
          first [ discriminate | injection Hs as <-; congruence ] ].

(** What [applySelector] never touches, and what it always does: it is
    entered once, and [notify] is called, once or twice, unless the selector
    throws [null] or [undefined]; then nobody is notified and a [TypeError]
    leaves the method. *)
Lemma applySelector_frame (w : world) :
  let w' := exec applySelector w in
  rawItems (this w') = rawItems (this w)
  /\ isLoading (this w') = isLoading (this w)
  /\ options (this w') = options (this w)
  /\ subscribers (this w') = subscribers (this w)
  /\ currentSelector (this w') = currentSelector (this w)
  /\ selectorDependencies (this w') = selectorDependencies (this w)
  /\ recomputations (trace w') = S (recomputations (trace w))
  /\ (~ selector_throws_nullish (this w) ->
        notifications (trace w) < notifications (trace w'))
  /\ (selector_throws_nullish (this w) ->
        notifications (trace w') = notifications (trace w)
        /\ raises_TypeError (eval applySelector w)).
Proof.
  cbv zeta. unfold exec, eval. apply_cases w;
    (split; [reflexivity|]); (split; [reflexivity|]);
    (split; [reflexivity|]); (split; [reflexivity|]);
    (split; [reflexivity|]); (split; [reflexivity|]);
    (split; [count_events; lia|]); split.
  all: try (intros _; count_events; lia).
  all: try (not_nullish_case Hcall Hsel).
  all: try (intros Hn; exfalso; apply Hn; exists exn;
            split; [exact (selector_call_throws _ _ _ Hcall Hsel)
                   | exact Hnull]).
  all: intros _; split; [count_events; lia|];
    eexists _, _; split; [|reflexivity]; exact Hnull.
Qed.

End Runs.

(** ** The windowed reads *)

Module Reads.
Import Js Exec Provider Props Runs.
Local Open Scope exec_scope.

Lemma length_zero_nil {A} (l : list A) :
  (List.length l =? 0)%nat = true <-> l = [].
Proof.
  destruct l; cbn; split; intros H; try reflexivity; discriminate.
Qed.

Lemma loading_branch_true (p : Provider) :
  loading_branch p = true <-> placeholders_apply p.
Proof.
  unfold loading_branch, placeholders_apply, length_of.
  rewrite !andb_true_iff, length_zero_nil. tauto.
Qed.

Lemma loading_branch_false (p : Provider) :
  loading_branch p = false <-> ~ placeholders_apply p.
Proof.
  rewrite <- loading_branch_true. destruct (loading_branch p); split;
    intros H; try reflexivity; try discriminate; try (intros H'; discriminate).
  exfalso; apply H; reflexivity.
Qed.

Lemma error_branch_some (p : Provider) (e : Error) :
  error_branch p = Some e <-> error p = Some e /\ error_item_applies p.
Proof.
  unfold error_branch, error_item_applies, length_of.
  destruct (error p) as [e'|].
  - destruct (_ && _) eqn:G.
    + apply andb_true_iff in G. destruct G as [G1 G2].
      apply length_zero_nil in G1. split.
      * intros [= ->]. repeat split; try assumption. discriminate.
      * intros [[= ->] _]. reflexivity.
    + split; [discriminate|]. intros [_ (_ & H1 & H2)].
      apply length_zero_nil in H1. rewrite H1, H2 in G. discriminate.
  - split; [discriminate|]. intros [H _]. discriminate.
Qed.

Lemma error_branch_none (p : Provider) :
  error_branch p = None <-> ~ error_item_applies p.
Proof.
  split.
  - intros H Happ. destruct (error p) as [e|] eqn:He.
    + assert (G : error_branch p = Some e)
        by (apply error_branch_some; split; assumption).
      congruence.
    + destruct Happ as [Hn _]. apply Hn. assumption.
  - intros H. destruct (error_branch p) as [e|] eqn:G; [|reflexivity].
    apply error_branch_some in G. tauto.
Qed.

Lemma placeholder_run (s i : Z) (w : world) :
  placeholder s i w =
  (Normal {| item_ref := S (next_ref w);
             id := "__placeholder-" ++ string_of_Z (s + i);
             content :=
               VObject (next_ref w)
                 (Literal [("__isPlaceholder", VBool true);
                           ("index", VNumber (Int (s + i)))]);
             type := None |},
   {| this := this w; next_ref := S (S (next_ref w)); trace := trace w |}).
Proof. reflexivity. Qed.

Lemma error_item_run (e : Error) (w : world) :
  error_item e w =
  (Normal {| item_ref := S (next_ref w);
             id := "__error-item";
             content :=
               VObject (next_ref w)
                 (Literal [("__isError", VBool true);
                           ("error", VString (message e));
                           ("originalError", error_value e)]);
             type := None |},
   {| this := this w; next_ref := S (S (next_ref w)); trace := trace w |}).
Proof. reflexivity. Qed.

(** The loop of [Array.from] over [placeholder]. *)
Lemma from_loop_placeholders (s : Z) (n : nat) :
  forall (i : Z) (w : world),
  exists items w',
    from_loop (placeholder s) i n w = (Normal items, w')
    /\ reads_only w w'
    /\ List.length items = n
    /\ forall j, (j < n)%nat ->
         exists it, nth_error items j = Some it
                    /\ is_placeholder (s + (i + Z.of_nat j))%Z it.
Proof.
  induction n as [|n IH]; intros i w.
  - exists [], w. cbn. repeat split. intros j Hj. lia.
  - cbn [from_loop].
    set (w1 := {| this := this w; next_ref := S (S (next_ref w));
                  trace := trace w |}).
    destruct (IH (i + 1)%Z w1) as (rest & w' & Hrun & [Hthis Htr] & Hlen & Hall).
    eexists (_ :: rest), w'. split; [|split; [|split]].
    + unfold_run. rewrite placeholder_run. fold w1. rewrite Hrun.
      reflexivity.
    + split; [rewrite Hthis | rewrite Htr]; reflexivity.
    + cbn. rewrite Hlen. reflexivity.
    + intros [|j] Hj.
      * eexists. split; [reflexivity|].
        replace (s + (i + Z.of_nat 0))%Z with (s + i)%Z by lia.
        unfold is_placeholder; cbn. repeat split. eexists. reflexivity.
      * destruct (Hall j ltac:(lia)) as (it & Hnth & Hit).
        exists it. split; [exact Hnth|].
        replace (s + (i + Z.of_nat (S j)))%Z
          with (s + (i + 1 + Z.of_nat j))%Z by lia.
        exact Hit.
Qed.

(** The loading branch of [getData], for any shape the built placeholders
    have. *)
Lemma getData_loading (w : world) (s e : Z) :
  placeholders_apply (this w) ->
  placeholders_returned is_placeholder w s e.
Proof.
  intros Hload. apply loading_branch_true in Hload.
  unfold placeholders_returned. cbv zeta.
  set (n := Z.min (e - s + 1) (placeholderCount (options (this w)))).
  set (w1 := {| this := this w; next_ref := S (next_ref w);
                trace := trace w |}).
  destruct (from_loop_placeholders s (Z.to_nat n) 0%Z w1)
    as (items & w' & Hrun & [Hthis Htr] & Hlen & Hall).
  exists {| arr_ref := next_ref w; elements := items |}, w'.
  split; [|split; [|split]].
  - unfold getData. step. rewrite Hload. unfold Array_from. step.
    fold n. fold w1. rewrite Hrun. reflexivity.
  - split; [rewrite Hthis | rewrite Htr]; reflexivity.
  - exact Hlen.
  - intros i Hi. destruct (Hall (Z.to_nat i) ltac:(lia)) as (it & Hnth & Hit).
    exists it. split.
    + unfold index. cbn [elements].
      destruct (Z.ltb_spec i 0); [lia | exact Hnth].
    + replace (s + (0 + Z.of_nat (Z.to_nat i)))%Z with (s + i)%Z in Hit by lia.
      exact Hit.
Qed.

End Reads.

(** ** The windowed reads, claim by claim *)

Import Js Exec Provider Props Runs Reads.
Local Open Scope exec_scope.

(** [slice] on a range inside the list: length and elements. *)
Lemma slice_inside {A} (l : list A) (a b : Z) :
  (0 <= a <= b)%Z -> (b < Z.of_nat (List.length l))%Z ->
  Z.of_nat (List.length (slice l a (b + 1))) = (b - a + 1)%Z
  /\ forall i, (0 <= i <= b - a)%Z ->
       index (slice l a (b + 1)) i = index l (a + i).
Proof.
  intros Hab Hb. unfold slice.
  destruct (Z.ltb_spec a 0); [lia|].
  destruct (Z.ltb_spec (b + 1) 0); [lia|].
  rewrite !Z.min_l by lia. split.
  - rewrite length_firstn, length_skipn. lia.
  - intros i Hi. unfold index.
    destruct (Z.ltb_spec i 0); [lia|].
    destruct (Z.ltb_spec (a + i) 0); [lia|].
    rewrite nth_error_firstn, nth_error_skipn.
    destruct (Nat.ltb_spec (Z.to_nat i) (Z.to_nat (b + 1 - a))); [|lia].
    f_equal. lia.
Qed.

Lemma slice_whole {A} (l : list A) :
  slice l 0 (Z.of_nat (List.length l)) = l.
Proof.
  unfold slice. cbn [Z.ltb Z.compare].
  destruct (Z.ltb_spec (Z.of_nat (List.length l)) 0); [lia|].
  rewrite !Z.min_l by lia. rewrite Z.sub_0_r, Nat2Z.id. cbn [Z.to_nat skipn].
  apply firstn_all.
Qed.

(** The normal branch of [getData]. *)
Lemma getData_normal (w : world) (s e : Z) :
  ~ placeholders_apply (this w) -> ~ error_item_applies (this w) ->
  let sel := elements (selectedItems (this w)) in
  let len := Z.of_nat (List.length sel) in
  let safeStart := Z.max 0 s in
  let safeEnd := Z.min (len - 1) e in
  getData s e w =
  (Normal {| arr_ref := next_ref w;
             elements :=
               if (safeStart >? safeEnd)%Z || (safeStart >=? len)%Z then []
               else slice sel safeStart (safeEnd + 1) |},
   {| this := this w; next_ref := S (next_ref w); trace := trace w |}).
Proof.
  intros Hl He. apply loading_branch_false in Hl.
  apply error_branch_none in He. cbv zeta.
  unfold getData. step. rewrite Hl, He. unfold length_of.
  destruct (_ || _); reflexivity.
Qed.

(** C3 (as amended): while loading with an empty derived sequence and
    [showPlaceholdersWhileLoading], [getData(startIndex, endIndex)] returns
    exactly [min(endIndex - startIndex + 1, placeholderCount)] items when
    that is positive (none otherwise); the [i]-th has id
    ["__placeholder-{startIndex+i}"], no type, and content
    [{ __isPlaceholder: true, index: startIndex + i }].  The provider is
    left as it was. *)
Theorem getData_placeholders_while_loading :
  forall (w : world) (startIndex endIndex : Z),
    isLoading (this w) = true ->
    elements (selectedItems (this w)) = [] ->
    showPlaceholdersWhileLoading (options (this w)) = true ->
    placeholders_returned is_placeholder w startIndex endIndex.
Proof.
  intros w s e H1 H2 H3. apply getData_loading. repeat split; assumption.
Qed.

Lemma getData_placeholders_while_loading_witness :
  placeholders_returned is_placeholder Sample.loading 0 2.
Proof.
  apply (getData_placeholders_while_loading Sample.loading 0 2);
    reflexivity.
Defined.

(** C3, counterexample: with [placeholderCount = 5] and an empty loading
    provider, the first item of [getData(0, 2)] has no property
    [isPlaceholder]; the flag is stored under [__isPlaceholder]. *)
Lemma placeholder_content_not_as_specified :
  ~ placeholders_returned placeholder_as_specified Sample.loading 0 2.
Proof.
  intros (arr & w' & Hrun & _ & _ & Hall).
  vm_compute in Hrun. injection Hrun as <- _.
  destruct (Hall 0%Z ltac:(vm_compute; split; congruence)) as (it & Hit & Hshape).
  vm_compute in Hit. injection Hit as <-.
  destruct Hshape as (_ & Hflag & _). vm_compute in Hflag. discriminate.
Qed.

(** C4 (as amended): with a stored error, an empty derived sequence,
    [showErrorItem] and the loading branch not applying, [getData] returns
    exactly one item whatever the range: id ["__error-item"], no type, and
    content [{ __isError: true, error, originalError }] where [error] is the
    stored error's message and [originalError] the stored error itself.  The
    provider is left as it was. *)
Theorem getData_error_item :
  forall (w : world) (startIndex endIndex : Z),
    error (this w) <> None ->
    elements (selectedItems (this w)) = [] ->
    showErrorItem (options (this w)) = true ->
    ~ placeholders_apply (this w) ->
    error_item_returned is_error_item w startIndex endIndex.
Proof.
  intros w s e Herr Hsel Hshow Hl.
  destruct (error (this w)) as [err|] eqn:He; [|congruence].
  assert (Hb : error_branch (this w) = Some err).
  { apply error_branch_some. split; [assumption|].
    repeat split; try assumption. rewrite He. discriminate. }
  apply loading_branch_false in Hl.
  unfold error_item_returned. rewrite He.
  eexists err, _, _, _. split; [reflexivity|]. split; [|split; [|split]].
  - unfold getData. step. rewrite Hl, Hb. unfold_run.
    rewrite error_item_run. reflexivity.
  - split; reflexivity.
  - reflexivity.
  - unfold is_error_item; cbn. repeat split. eexists. reflexivity.
Qed.

Lemma getData_error_item_witness :
  error_item_returned is_error_item Sample.errored (-3) 40.
Proof.
  apply (getData_error_item Sample.errored (-3) 40).
  - discriminate.
  - reflexivity.
  - reflexivity.
  - intros (H & _). discriminate H.
Defined.

(** C4, counterexample: after a failed fetch, the item [getData(0, 2)]
    returns has no properties [isError] and [message]; the flag is stored
    under [__isError] and the message under [error]. *)
Lemma error_content_not_as_specified :
  ~ error_item_returned error_item_as_specified Sample.errored 0 2.
Proof.
  intros (err & arr & w' & it & _ & Hrun & _ & Hit & Hshape).
  vm_compute in Hrun. injection Hrun as <- _.
  cbn in Hit. injection Hit as <-.
  destruct Hshape as (_ & Hflag & _). vm_compute in Hflag. discriminate.
Qed.

(** C5: in the normal state (neither sentinel branch applies) and for
    arbitrary integers, [getData] clamps the start up to 0 and the end down
    to [len - 1]; it returns the empty sequence when the clamped start
    exceeds the clamped end or is at least [len], and otherwise the
    inclusive slice from the clamped start to the clamped end.  On a derived
    sequence of length 3, [getData(-5, 1000)] returns all three items and
    [getData(10, 20)] none. *)
Theorem getData_clamps_range :
  forall (w : world) (startIndex endIndex : Z),
    ~ placeholders_apply (this w) ->
    ~ error_item_applies (this w) ->
    let derived := elements (selectedItems (this w)) in
    let len := Z.of_nat (List.length derived) in
    let safeStart := Z.max 0 startIndex in
    let safeEnd := Z.min (len - 1) endIndex in
    exists arr w',
      getData startIndex endIndex w = (Normal arr, w')
      /\ reads_only w w'
      /\ ((safeStart > safeEnd \/ safeStart >= len)%Z -> elements arr = [])
      /\ ((safeStart <= safeEnd)%Z -> (safeStart < len)%Z ->
            Z.of_nat (length_of arr) = (safeEnd - safeStart + 1)%Z
            /\ forall i, (0 <= i <= safeEnd - safeStart)%Z ->
                 index (elements arr) i = index derived (safeStart + i))
      /\ (len = 3%Z -> startIndex = (-5)%Z -> endIndex = 1000%Z ->
            elements arr = derived)
      /\ (len = 3%Z -> startIndex = 10%Z -> endIndex = 20%Z ->
            elements arr = []).
Proof.
  intros w s e Hl He derived len safeStart safeEnd.
  pose proof (getData_normal w s e Hl He) as Hrun. cbv zeta in Hrun.
  fold derived len safeStart safeEnd in Hrun.
  eexists _, _. split; [exact Hrun|]. cbn [elements length_of].
  split; [split; reflexivity|].
  destruct (Z.gtb_spec safeStart safeEnd) as [Hgt|Hle];
    destruct (Z.geb_spec safeStart len) as [Hge|Hlt]; cbn [orb].
  1-3: repeat split; try reflexivity; intros; subst safeStart safeEnd; lia.
  split; [intros [?|?]; lia|]. split; [|split].
  - intros _ _. apply slice_inside; subst safeStart safeEnd len; lia.
  - intros H3 -> ->. subst safeStart safeEnd. rewrite H3.
    change (Z.max 0 (-5)) with 0%Z. change (Z.min (3 - 1) 1000 + 1)%Z with 3%Z.
    rewrite <- H3. subst len. apply slice_whole.
  - intros H3 -> ->. subst safeStart safeEnd. rewrite H3 in Hlt.
    vm_compute in Hlt. discriminate.
Qed.

Lemma getData_clamps_range_witness :
  exists arr w',
    getData (-5) 1000 Sample.loaded = (Normal arr, w')
    /\ elements arr = elements Sample.items_abc.
Proof.
  destruct (getData_clamps_range Sample.loaded (-5) 1000)
    as (arr & w' & Hrun & _ & _ & _ & Hall & _).
  - intros (H & _). discriminate H.
  - intros (H & _). apply H. reflexivity.
  - exists arr, w'. split; [exact Hrun|]. apply Hall; reflexivity.
Defined.

(** C6: loading and error at once, empty derived sequence, both flags on:
    [getData] returns the placeholders of the requested range, and no item
    of its result is the error item; the loading branch is tested first. *)
Theorem getData_placeholders_before_error :
  forall (w : world) (someError : Error) (startIndex endIndex : Z),
    isLoading (this w) = true ->
    error (this w) = Some someError ->
    elements (selectedItems (this w)) = [] ->
    showPlaceholdersWhileLoading (options (this w)) = true ->
    showErrorItem (options (this w)) = true ->
    placeholders_returned is_placeholder w startIndex endIndex
    /\ forall arr, eval (getData startIndex endIndex) w = Normal arr ->
         Forall (fun it => id it <> "__error-item"
                           /\ ~ is_error_item someError it) (elements arr).
Proof.
  intros w err s e H1 _ H2 H3 _.
  assert (Hret : placeholders_returned is_placeholder w s e)
    by (apply getData_loading; repeat split; assumption).
  split; [exact Hret|].
  destruct Hret as (arr & w' & Hrun & _ & Hlen & Hall).
  intros arr' Hev. unfold eval in Hev. rewrite Hrun in Hev.
  injection Hev as <-. apply Forall_forall. intros it Hin.
  apply In_nth_error in Hin. destruct Hin as [j Hj].
  assert (Hlt : (j < length_of arr)%nat).
  { apply nth_error_Some. unfold length_of. rewrite Hj. discriminate. }
  destruct (Hall (Z.of_nat j) ltac:(lia)) as (it' & Hit' & (Hid & _)).
  unfold index in Hit'. destruct (Z.ltb_spec (Z.of_nat j) 0); [lia|].
  rewrite Nat2Z.id, Hj in Hit'. injection Hit' as <-.
  assert (Hne : id it <> "__error-item").
  { rewrite Hid. cbn. discriminate. }
  split; [exact Hne|]. intros (Hid' & _). contradiction.
Qed.

Lemma getData_placeholders_before_error_witness :
  placeholders_returned is_placeholder Sample.loading_errored 0 2.
Proof.
  apply (getData_placeholders_before_error
           Sample.loading_errored Sample.failed 0 2); reflexivity.
Defined.

(** C9: [getTotalCount()] returns [placeholderCount] when loading with an
    empty derived sequence and [showPlaceholdersWhileLoading]; otherwise 1
    when there is an error, the derived sequence is empty and
    [showErrorItem]; otherwise the length of the derived sequence.  These
    are the guards of [getData], in the same order: reading the window
    [0 .. count - 1] returns as many items as the count says. *)
Theorem getTotalCount_branches :
  forall w : world,
    exists count,
      getTotalCount w = (Normal count, w)
      /\ (placeholders_apply (this w) ->
            count = placeholderCount (options (this w)))
      /\ (~ placeholders_apply (this w) -> error_item_applies (this w) ->
            count = 1%Z)
      /\ (~ placeholders_apply (this w) -> ~ error_item_applies (this w) ->
            count = Z.of_nat (length_of (selectedItems (this w))))
      /\ exists arr w',
           getData 0 (count - 1) w = (Normal arr, w')
           /\ length_of arr = Z.to_nat count.
Proof.
  intros w. unfold getTotalCount. step.
  destruct (loading_branch (this w)) eqn:Hl.
  - apply loading_branch_true in Hl. eexists. split; [reflexivity|].
    split; [reflexivity|]. split; [tauto|]. split; [tauto|].
    destruct (getData_loading w 0 (placeholderCount (options (this w)) - 1) Hl)
      as (arr & w' & Hrun & _ & Hlen & _).
    exists arr, w'. split; [exact Hrun|]. rewrite Hlen. f_equal. lia.
  - pose proof Hl as Hl'. apply loading_branch_false in Hl'.
    destruct (error_branch (this w)) as [err|] eqn:He.
    + pose proof He as He'. apply error_branch_some in He'.
      destruct He' as [Herr Happ].
      eexists. unfold_run. split; [reflexivity|].
      split; [tauto|]. split; [reflexivity|]. split; [tauto|].
      eexists _, _. split.
      * unfold getData. step. rewrite Hl, He. unfold_run.
        rewrite error_item_run. reflexivity.
      * reflexivity.
    + pose proof He as He'. apply error_branch_none in He'.
      eexists. unfold_run. split; [reflexivity|].
      split; [tauto|]. split; [tauto|]. split; [reflexivity|].
      eexists _, _. split; [apply getData_normal; assumption|].
      cbn [length_of elements]. unfold length_of.
      set (l := elements (selectedItems (this w))).
      rewrite Nat2Z.id.
      destruct l as [|x l'] eqn:El.
      * reflexivity.
      * replace (Z.max 0 0) with 0%Z by reflexivity.
        rewrite Z.min_id.
        destruct (Z.gtb_spec 0 (Z.of_nat (List.length (x :: l')) - 1));
          [cbn [List.length] in *; lia|].
        destruct (Z.geb_spec 0 (Z.of_nat (List.length (x :: l'))));
          [cbn [List.length] in *; lia|].
        cbn [orb].
        replace (Z.of_nat (List.length (x :: l')) - 1 + 1)%Z
          with (Z.of_nat (List.length (x :: l'))) by lia.
        rewrite slice_whole. reflexivity.
Qed.

(** ** The two inputs: change detection and the dependency gate *)









Lemma nonempty_true (a : Array) :
  (0 <? length_of a)%nat = true <-> elements a <> [].
Proof.
  unfold length_of. destruct (elements a); cbn; split; intros H;
    try discriminate; try reflexivity; congruence.
Qed.



Lemma updateRawData_changed (w : world) (items : Array) (l : bool)
    (e : option Error) :
  hasRawDataChanged (this w) items l e = true ->
  updateRawData items l e w = applySelector (stored items l e w).
Proof. intros H. unfold updateRawData. step. rewrite H. reflexivity. Qed.

Lemma updateRawData_unchanged (w : world) (items : Array) (l : bool)
    (e : option Error) :
  hasRawDataChanged (this w) items l e = false ->
  updateRawData items l e w = (Normal tt, w).
Proof. intros H. unfold updateRawData. step. rewrite H. reflexivity. Qed.

(** A recomputation that completes leaves the error flag alone and
    notifies once. *)
Lemma applySelector_completes (w : world) :
  recomputation_completes (this w) ->
  let w' := exec applySelector w in
  eval applySelector w = Normal tt
  /\ error (this w') = error (this w)
  /\ next_ref w' = next_ref w
  /\ notifications (trace w') = S (notifications (trace w)).
Proof.
  intros [Hsel Hsub]. cbv zeta. unfold exec, eval.
  rewrite applySelector_unfold. cbv beta iota delta [try_catch].
  destruct (selector_call (this (logged [CallApplySelector] w)))
    as [sel|] eqn:Hcall.
  - destruct (Hsel sel Hcall) as [a Ha].
    rewrite (try_selected _ sel a Hcall Ha).
    cbn [this logged subscribers]. rewrite Hsub.
    cbn [outcome_of fst snd this next_ref trace logged error
         set_selectedItems].
    repeat split. count_events. lia.
  - rewrite (try_pass_through _ Hcall).
    cbn [this logged subscribers]. rewrite Hsub.
    cbn [outcome_of fst snd this next_ref trace logged error
         set_selectedItems].
    repeat split. count_events. lia.
Qed.







Lemma updateSelector_changed (w : world) (selector : option SelectorFunction)
    (deps : list value) :
  selector_neq (currentSelector (this w)) selector
  || negb (shallowEqual (selectorDependencies (this w)) deps) = true ->
  updateSelector selector deps w =
  applySelector (selector_stored selector deps w).
Proof. intros H. unfold updateSelector. step. rewrite H. reflexivity. Qed.

Lemma updateSelector_unchanged (w : world)
    (selector : option SelectorFunction) (deps : list value) :
  selector_neq (currentSelector (this w)) selector
  || negb (shallowEqual (selectorDependencies (this w)) deps) = false ->
  updateSelector selector deps w = (Normal tt, w).
Proof. intros H. unfold updateSelector. step. rewrite H. reflexivity. Qed.



(** Strict equality is not reflexive on [NaN]: a dependency list holding
    [NaN] differs from itself, as in the source's [a[i] !== b[i]]. *)
Remark deps_differ_NaN : deps_differ [VNumber NaN] [VNumber NaN].
Proof. right. exists 0%nat. split; [cbn; lia | reflexivity]. Qed.

(** ** Recomputation: failure and pass-through *)

Lemma selector_throws_call (p : Provider) (exn : value) :
  selector_throws p exn ->
  exists selector,
    selector_call p = Some selector
    /\ sel_apply selector (rawItems p) (selectorDependencies p) = Throw exn.
Proof.
  intros (selector & Hcur & Hne & Hthrow). exists selector.
  split; [|exact Hthrow]. unfold selector_call. rewrite Hcur.
  apply nonempty_true in Hne. rewrite Hne. reflexivity.
Qed.


(** A selector that throws [null] or [undefined]: the [catch] block empties
    the derived sequence and then raises a [TypeError]; the error is left
    as it was and nobody is notified. *)
Lemma applySelector_thrown_nullish (w : world) (exn : value) :
  selector_throws (this w) exn ->
  nullish exn = true ->
  let w' := exec applySelector w in
  raises_TypeError (eval applySelector w)
  /\ elements (selectedItems (this w')) = []
  /\ error (this w') = error (this w)
  /\ rawItems (this w') = rawItems (this w)
  /\ notifications (trace w') = notifications (trace w).
Proof.
  intros Ht Hnull.
  destruct (selector_throws_call _ _ Ht) as (sel & Hcall & Hsel).
  cbv zeta. unfold exec, eval.
  rewrite applySelector_unfold. cbv beta iota delta [try_catch].
  rewrite (try_thrown (logged [CallApplySelector] w) sel exn Hcall Hsel).
  rewrite (catch_run_nullish _ _ Hnull).
  cbn [fst snd this next_ref trace logged rawItems selectedItems subscribers
       error set_error set_selectedItems elements].
  split; [eexists _, _; split; [|reflexivity]; exact Hnull|].
  repeat split. count_events. lia.
Qed.

(** A change of a flag is a change. *)
Lemma hasRawDataChanged_flags (p : Provider) (items : Array) (l : bool)
    (e : option Error) :
  negb (Bool.eqb (isLoading p) l) || error_neq (error p) e = true ->
  hasRawDataChanged p items l e = true.
Proof.
  intros H. unfold hasRawDataChanged. rewrite H.
  destruct (enableChangeDetection (options p)); [|reflexivity].
  match goal with |- (if ?c then _ else _) = _ => destruct c end;
    reflexivity.
Qed.






(** X29: a selector that throws [null] or [undefined] while the
    recomputation applies it, whether [updateRawData] or [updateSelector]
    started the recomputation: the [catch] block empties the derived
    sequence and then raises a [TypeError] that leaves the public method;
    the error stays as the method had it (the argument of [updateRawData],
    the stored error for [updateSelector]), the raw sequence is the one the
    selector was applied to, and nobody is notified. *)
Theorem selector_throwing_nullish_escapes :
  (forall (w : world) (items : Array) (l : bool) (e : option Error)
          (exn : value),
      hasRawDataChanged (this w) items l e = true ->
      selector_throws (this (stored items l e w)) exn ->
      nullish exn = true ->
      let w1 := exec (updateRawData items l e) w in
      raises_TypeError (eval (updateRawData items l e) w)
      /\ elements (selectedItems (this w1)) = []
      /\ error (this w1) = e
      /\ rawItems (this w1) = items
      /\ notifications (trace w1) = notifications (trace w))
  /\ (forall (w : world) (selector : option SelectorFunction)
             (deps : list value) (exn : value),
         selector_neq (currentSelector (this w)) selector
         || negb (shallowEqual (selectorDependencies (this w)) deps) = true ->
         selector_throws (this (selector_stored selector deps w)) exn ->
         nullish exn = true ->
         let w1 := exec (updateSelector selector deps) w in
         raises_TypeError (eval (updateSelector selector deps) w)
         /\ elements (selectedItems (this w1)) = []
         /\ error (this w1) = error (this w)
         /\ rawItems (this w1) = rawItems (this w)
         /\ notifications (trace w1) = notifications (trace w)).
Proof.
  split.
  - intros w items l e exn Hch Ht Hnull w1. subst w1. unfold exec, eval.
    rewrite (updateRawData_changed w items l e Hch).
    exact (applySelector_thrown_nullish (stored items l e w) exn Ht Hnull).
  - intros w selector deps exn Hch Ht Hnull w1. subst w1. unfold exec, eval.
    rewrite (updateSelector_changed w selector deps Hch).
    exact (applySelector_thrown_nullish (selector_stored selector deps w)
             exn Ht Hnull).
Qed.

Lemma selector_throwing_nullish_escapes_witness :
  raises_TypeError
    (eval (updateSelector (Some Sample.null_throwing_selector) [])
       Sample.loaded).
Proof.
  destruct selector_throwing_nullish_escapes as [_ Hsel].
  destruct (Hsel Sample.loaded (Some Sample.null_throwing_selector) [] VNull)
    as (Hraise & _).
  - reflexivity.
  - exists Sample.null_throwing_selector.
    split; [reflexivity|]. split; [discriminate | reflexivity].
  - reflexivity.
  - exact Hraise.
Defined.

(** C2, at the failing input: a provider whose selector throws [null].
    [updateRawData([a, b, c], false, null)] is applied and calls the
    selector; the [catch] block empties the derived sequence and then reads
    [.message] of [null], which raises a [TypeError]: an exception leaves
    [updateRawData], no wrapped error is stored, nobody is notified, and
    the total count reads 0.  The same happens when [updateSelector]
    installs that selector on a loaded provider. *)
Lemma selector_throwing_null_is_not_contained :
  let w := Sample.with_null_throwing_selector in
  let w' := exec (updateRawData Sample.items_abc false None) w in
  let v' := exec (updateSelector (Some Sample.null_throwing_selector) [])
              Sample.loaded in
  eval (updateRawData Sample.items_abc false None) w
    = Throw (VObject 203
               (ErrorObject "Cannot read properties of null (reading 'message')"))
  /\ rawItems (this w') = Sample.items_abc
  /\ selectedItems (this w') = {| arr_ref := 202; elements := [] |}
  /\ error (this w') = None
  /\ notifications (trace w') = notifications (trace w)
  /\ getTotalCount w' = (Normal 0%Z, w')
  /\ raises_TypeError
       (eval (updateSelector (Some Sample.null_throwing_selector) [])
          Sample.loaded)
  /\ error (this v') = None
  /\ notifications (trace v') = notifications (trace Sample.loaded).
Proof.
  cbv zeta.
  split; [vm_compute; reflexivity|]. split; [vm_compute; reflexivity|].
  split; [vm_compute; reflexivity|]. split; [vm_compute; reflexivity|].
  split; [vm_compute; reflexivity|]. split; [vm_compute; reflexivity|].
  split; [exists 203%nat, VNull; split; vm_compute; reflexivity|].
  split; vm_compute; reflexivity.
Qed.

(** Pass-through: when the recomputation calls no selector (none is set, or
    the raw sequence is empty) and no subscriber throws, the derived
    sequence is the raw array itself, and a read of the full range returns
    its items. *)
Lemma applySelector_pass_through (w : world) :
  selector_call (this w) = None ->
  first_throw (subscribers (this w)) = None ->
  let w' := exec applySelector w in
  eval applySelector w = Normal tt
  /\ selectedItems (this w') = rawItems (this w')
  /\ rawItems (this w') = rawItems (this w)
  /\ (elements (rawItems (this w)) <> [] ->
        exists arr w'',
          getData 0 (Z.of_nat (length_of (rawItems (this w))) - 1) w'
            = (Normal arr, w'')
          /\ elements arr = elements (rawItems (this w))).
Proof.
  intros Hcall Hsub. cbv zeta. unfold exec, eval.
  rewrite applySelector_unfold. cbv beta iota delta [try_catch].
  rewrite (try_pass_through (logged [CallApplySelector] w) Hcall).
  cbn [this logged subscribers]. rewrite Hsub.
  cbn [outcome_of fst snd this rawItems selectedItems set_selectedItems].
  repeat split. intros Hne.
  eexists _, _. split.
  - apply getData_normal;
      cbn [this selectedItems set_selectedItems].
    + intros (_ & H & _). contradiction.
    + intros (_ & H & _). contradiction.
  - cbn [elements this selectedItems set_selectedItems]. unfold length_of.
    set (l := elements (rawItems (this w))) in *.
    change (Z.max 0 0) with 0%Z. rewrite Z.min_id.
    destruct l as [|x l'] eqn:El; [congruence|].
    destruct (Z.gtb_spec 0 (Z.of_nat (List.length (x :: l')) - 1));
      [cbn [List.length] in *; lia|].
    destruct (Z.geb_spec 0 (Z.of_nat (List.length (x :: l'))));
      [cbn [List.length] in *; lia|].
    cbn [orb].
    replace (Z.of_nat (List.length (x :: l')) - 1 + 1)%Z
      with (Z.of_nat (List.length (x :: l'))) by lia.
    apply slice_whole.
Qed.

(** C8, at the failing input: no selector and one subscriber that throws.
    [updateRawData([a, b, c], false, null)] assigns the raw array to the
    derived sequence and notifies; the subscriber's exception lands in the
    [catch] block meant for the selector, which empties the derived
    sequence, stores a "Selector error" and notifies again, and that second
    exception leaves the method.  The derived sequence is not the raw one,
    and the full range reads as the error item. *)
Lemma pass_through_lost_when_subscriber_throws :
  let w := Sample.with_throwing_listener in
  let w' := exec (updateRawData Sample.items_abc false None) w in
  currentSelector (this w) = None
  /\ eval (updateRawData Sample.items_abc false None) w = Throw Sample.boom
  /\ rawItems (this w') = Sample.items_abc
  /\ selectedItems (this w') = {| arr_ref := 202; elements := [] |}
  /\ error (this w')
     = Some {| err_ref := 203; message := "Selector error: boom" |}
  /\ notifications (trace w') = 2
  /\ option_map (fun a => map id (elements a))
       (match eval (getData 0 2) w' with
        | Normal a => Some a
        | Throw _ => None
        end)
     = Some ["__error-item"].
Proof. cbv zeta. repeat split. Qed.

Lemma getTotalCount_branches_witness :
  getTotalCount Sample.loading = (Normal 5%Z, Sample.loading)
  /\ getTotalCount Sample.errored = (Normal 1%Z, Sample.errored)
  /\ getTotalCount Sample.loaded = (Normal 3%Z, Sample.loaded).
Proof.
  split; [|split].
  - destruct (getTotalCount_branches Sample.loading) as (n & Hrun & Hl & _).
    rewrite Hrun, Hl; [reflexivity|]. repeat split.
  - destruct (getTotalCount_branches Sample.errored)
      as (n & Hrun & _ & He & _).
    rewrite Hrun, He; [reflexivity| |].
    + intros (H & _). discriminate H.
    + repeat split. discriminate.
  - destruct (getTotalCount_branches Sample.loaded)
      as (n & Hrun & _ & _ & Hn & _).
    rewrite Hrun, Hn; [reflexivity| |].
    + intros (H & _). discriminate H.
    + intros (H & _). apply H. reflexivity.
Defined.

(** ** More of the provider: subscribers *)

Lemma set_add_present (cb : Callback) (s : list Callback) :
  existsb (same_callback cb) (set_add cb s) = true.
Proof.
  unfold set_add. destruct (existsb (same_callback cb) s) eqn:H.
  - exact H.
  - rewrite existsb_app. cbn. unfold same_callback.
    rewrite Nat.eqb_refl. apply orb_true_r.
Qed.

Lemma not_subscribed_filter (cb : Callback) (s : list Callback) :
  Forall (fun c => cb_ref c <> cb_ref cb) s ->
  existsb (same_callback cb) s = false /\ set_delete cb s = s.
Proof.
  induction 1 as [|c s Hc Hs [IH1 IH2]]; [split; reflexivity|].
  assert (Hne : same_callback cb c = false).
  { unfold same_callback. apply Nat.eqb_neq. congruence. }
  unfold set_delete in *. cbn. rewrite Hne, IH1, IH2. split; reflexivity.
Qed.

Lemma provider_eta (p : Provider) :
  {| rawItems := rawItems p; selectedItems := selectedItems p;
     subscribers := subscribers p; isLoading := isLoading p;
     error := error p; options := options p;
     currentSelector := currentSelector p;
     selectorDependencies := selectorDependencies p |} = p.
Proof. destruct p; reflexivity. Qed.

(** X1: the subscribers are a set: subscribing a callback that is already
    subscribed changes nothing. *)
Theorem subscribe_twice :
  forall (w : world) (callback : Callback),
    exec (subscribe callback) (exec (subscribe callback) w)
    = exec (subscribe callback) w.
Proof.
  intros w cb. unfold exec, subscribe. step. unfold set_subscribers.
  cbn [rawItems selectedItems subscribers isLoading error options
       currentSelector selectorDependencies].
  unfold set_add at 1. rewrite set_add_present. reflexivity.
Qed.

(** X2: the function [subscribe] returns undoes the subscription: for a
    callback that was not subscribed, subscribing and then unsubscribing
    gives back the provider as it was. *)
Theorem unsubscribe_undoes_subscribe :
  forall (w : world) (callback : Callback),
    not_subscribed callback (this w) ->
    exec (unsubscribe callback) (exec (subscribe callback) w) = w.
Proof.
  intros w cb Hnot. destruct (not_subscribed_filter cb _ Hnot) as [Hex Hdel].
  unfold exec, subscribe, unsubscribe. step. unfold set_subscribers.
  cbn [rawItems selectedItems subscribers isLoading error options
       currentSelector selectorDependencies].
  unfold set_add. rewrite Hex. unfold set_delete in *.
  rewrite filter_app, Hdel. cbn. unfold same_callback.
  rewrite Nat.eqb_refl. cbn. rewrite app_nil_r, provider_eta.
  apply world_eta.
Qed.

Lemma unsubscribe_undoes_subscribe_witness :
  exec (unsubscribe Sample.second_listener)
    (exec (subscribe Sample.second_listener) Sample.loaded)
  = Sample.loaded.
Proof.
  apply (unsubscribe_undoes_subscribe Sample.loaded Sample.second_listener).
  repeat constructor. cbn. discriminate.
Defined.

Lemma called_no_throw (cbs : list Callback) :
  no_throw cbs -> called cbs = map cb_ref cbs /\ first_throw cbs = None.
Proof.
  induction 1 as [|cb rest Hcb Hrest [IH1 IH2]]; [split; reflexivity|].
  cbn. rewrite Hcb, IH1, IH2. split; reflexivity.
Qed.

Lemma called_thrower (before after : list Callback) (thrower : Callback)
    (e : value) :
  no_throw before -> cb_throws thrower = Some e ->
  called (before ++ thrower :: after) = (map cb_ref before ++ [cb_ref thrower])%list
  /\ first_throw (before ++ thrower :: after) = Some e.
Proof.
  intros Hb Ht. induction Hb as [|cb rest Hcb Hrest [IH1 IH2]].
  - cbn. rewrite Ht. split; reflexivity.
  - cbn. rewrite Hcb, IH1, IH2. split; reflexivity.
Qed.

(** X3: when no subscriber throws, [notify] calls every subscriber once, in
    the order of subscription, and returns. *)
Theorem notify_reaches_all :
  forall w : world,
    no_throw (subscribers (this w)) ->
    notify w =
    (Normal tt,
     logged (CallNotify
             :: map CallSubscriber (map cb_ref (subscribers (this w)))) w).
Proof.
  intros w Hn. destruct (called_no_throw _ Hn) as [Hc Hf].
  rewrite notify_run. unfold notify_events, logged. rewrite Hc, Hf.
  reflexivity.
Qed.

Lemma notify_reaches_all_witness :
  notify Sample.loaded =
  (Normal tt, logged [CallNotify; CallSubscriber 140] Sample.loaded).
Proof.
  apply (notify_reaches_all Sample.loaded). repeat constructor.
Defined.

(** X4: a subscriber that throws ends the round: the subscribers after it
    are not called and its exception leaves [notify]. *)
Theorem notify_stops_at_thrower :
  forall (w : world) (before after : list Callback) (thrower : Callback)
         (e : value),
    subscribers (this w) = (before ++ thrower :: after)%list ->
    no_throw before ->
    cb_throws thrower = Some e ->
    notify w =
    (Throw e,
     logged (CallNotify
             :: map CallSubscriber (map cb_ref before ++ [cb_ref thrower])) w).
Proof.
  intros w before after thrower e Hs Hb Ht.
  destruct (called_thrower before after thrower e Hb Ht) as [Hc Hf].
  rewrite notify_run. unfold notify_events, logged. rewrite Hs, Hc, Hf.
  reflexivity.
Qed.

Lemma notify_stops_at_thrower_witness :
  notify (exec (subscribe Sample.listener)
            (exec (subscribe Sample.throwing_listener) Sample.loaded))
  = (Throw Sample.boom,
     logged [CallNotify; CallSubscriber 140; CallSubscriber 141]
       (exec (subscribe Sample.listener)
          (exec (subscribe Sample.throwing_listener) Sample.loaded))).
Proof.
  apply (notify_stops_at_thrower _ [Sample.listener] []
           Sample.throwing_listener Sample.boom).
  - reflexivity.
  - repeat constructor.
  - reflexivity.
Defined.

Lemma called_subscribed (cbs : list Callback) (r : ref) :
  In r (called cbs) -> In r (map cb_ref cbs).
Proof.
  induction cbs as [|cb rest IH]; cbn; [tauto|].
  intros [H|H]; [left; exact H|].
  destruct (cb_throws cb); [destruct H | right; apply IH; exact H].
Qed.

Lemma only_calls_app (refs : list ref) (a b : list event) :
  only_calls refs a -> only_calls refs b -> only_calls refs (a ++ b).
Proof.
  intros Ha Hb r Hin. apply in_app_or in Hin. destruct Hin; auto.
Qed.

Lemma only_calls_cons (refs : list ref) (ev : event) (l : list event) :
  match ev with CallSubscriber _ => False | _ => True end ->
  only_calls refs l -> only_calls refs (ev :: l).
Proof.
  intros Hev Hl r [Hin|Hin]; [subst ev; destruct Hev | auto].
Qed.

Lemma only_calls_nil (refs : list ref) : only_calls refs [].
Proof. intros r []. Qed.

Lemma only_calls_called (cbs : list Callback) :
  only_calls (map cb_ref cbs) (map CallSubscriber (called cbs)).
Proof.
  intros r Hin. apply in_map_iff in Hin. destruct Hin as (r' & [= ->] & Hr).
  apply called_subscribed. exact Hr.
Qed.

(** The subscriber calls of one recomputation go to subscribers. *)
Lemma applySelector_calls (w : world) :
  exists evs,
    trace (exec applySelector w) = (trace w ++ evs)%list
    /\ only_calls (map cb_ref (subscribers (this w))) evs.
Proof.
  unfold exec. apply_cases w; rewrite <- ?app_assoc;
    (eexists; split; [reflexivity|]);
    unfold notify_events; cbn [subscribers set_selectedItems];
    repeat first
      [ apply only_calls_called
      | apply only_calls_nil
      | apply only_calls_app
      | apply only_calls_cons; [exact I|] ].
Qed.

Lemma set_delete_absent (cb : Callback) (s : list Callback) :
  ~ In (cb_ref cb) (map cb_ref (set_delete cb s)).
Proof.
  intros H. apply in_map_iff in H. destruct H as (c & Hc & Hin).
  unfold set_delete in Hin. apply filter_In in Hin. destruct Hin as [_ Hn].
  apply negb_true_iff in Hn. unfold same_callback in Hn.
  apply Nat.eqb_neq in Hn. congruence.
Qed.

(** X5: a callback that has unsubscribed is not called by the next update,
    whether [updateRawData] or [updateSelector], applied or not. *)
Theorem unsubscribed_not_called :
  forall (w : world) (callback : Callback) (items : Array) (l : bool)
         (e : option Error) (selector : option SelectorFunction)
         (deps : list value),
    let w0 := exec (unsubscribe callback) w in
    (exists evs,
       trace (exec (updateRawData items l e) w0) = (trace w0 ++ evs)%list
       /\ ~ In (CallSubscriber (cb_ref callback)) evs)
    /\ (exists evs,
          trace (exec (updateSelector selector deps) w0) = (trace w0 ++ evs)%list
          /\ ~ In (CallSubscriber (cb_ref callback)) evs).
Proof.
  intros w cb items l e selector deps w0.
  assert (Hsubs : subscribers (this w0) = set_delete cb (subscribers (this w)))
    by reflexivity.
  split.
  - destruct (hasRawDataChanged (this w0) items l e) eqn:Hch.
    + unfold exec at 1. rewrite (updateRawData_changed _ _ _ _ Hch).
      destruct (applySelector_calls (stored items l e w0)) as (evs & Htr & Hin).
      exists evs. split; [exact Htr|]. intros Hc. apply Hin in Hc.
      cbn [stored this subscribers set_error set_isLoading set_rawItems] in Hc.
      rewrite Hsubs in Hc. exact (set_delete_absent _ _ Hc).
    + unfold exec at 1. rewrite (updateRawData_unchanged _ _ _ _ Hch).
      exists []. split; [cbn; rewrite app_nil_r; reflexivity | intros []].
  - destruct (selector_neq (currentSelector (this w0)) selector
              || negb (shallowEqual (selectorDependencies (this w0)) deps))
      eqn:Hch.
    + unfold exec at 1. rewrite (updateSelector_changed _ _ _ Hch).
      destruct (applySelector_calls (selector_stored selector deps w0))
        as (evs & Htr & Hin).
      exists evs. split; [exact Htr|]. intros Hc. apply Hin in Hc.
      cbn [selector_stored this subscribers set_selectorDependencies
           set_currentSelector] in Hc.
      rewrite Hsubs in Hc. exact (set_delete_absent _ _ Hc).
    + unfold exec at 1. rewrite (updateSelector_unchanged _ _ _ Hch).
      exists []. split; [cbn; rewrite app_nil_r; reflexivity | intros []].
Qed.

(** ** More of the provider: lookups *)

Lemma prefix_append (s rest : string) : String.prefix s (s ++ rest) = true.
Proof.
  induction s as [|a s IH]; cbn.
  - destruct rest; reflexivity.
  - destruct (Ascii.ascii_dec a a) as [_|Hne]; [exact IH | congruence].
Qed.

(** X6: sentinel ids are never addressable: [getItemById] answers [null]
    for every id that starts with ["__placeholder-"] and for
    ["__error-item"], without looking at the derived sequence. *)
Theorem getItemById_sentinels :
  forall (w : world) (rest : string),
    getItemById ("__placeholder-" ++ rest) w = (Normal None, w)
    /\ getItemById "__error-item" w = (Normal None, w).
Proof.
  intros w rest. unfold getItemById. step. rewrite prefix_append.
  split; reflexivity.
Qed.

Lemma find_first_with_id (i : string) (l : list ListItem) :
  first_with_id i l (find (fun item => String.eqb (id item) i) l).
Proof.
  induction l as [|x l IH]; cbn [find].
  - constructor.
  - destruct (String.eqb_spec (id x) i) as [Heq|Hne].
    + exists [], l. repeat split; [exact Heq | constructor].
    + destruct (find _ l) as [it|]; cbn [first_with_id] in *.
      * destruct IH as (before & after & Hl & Hid & Hall).
        exists (x :: before), after. rewrite Hl.
        repeat split; [exact Hid | constructor; assumption].
      * constructor; assumption.
Qed.

(** X7: for any other id, [getItemById] returns the first item of the
    derived sequence with that id, and [null] exactly when no item of the
    derived sequence has it; the provider is left as it was. *)
Theorem getItemById_first_match :
  forall (w : world) (i : string),
    String.prefix "__placeholder-" i = false ->
    i <> "__error-item" ->
    exists r,
      getItemById i w = (Normal r, w) /\ first_with_id i (derived w) r.
Proof.
  intros w i Hp He. unfold getItemById. step. rewrite Hp.
  destruct (String.eqb_spec i "__error-item") as [Heq|_]; [contradiction|].
  cbn [orb]. eexists. split; [reflexivity|]. apply find_first_with_id.
Qed.

Lemma getItemById_first_match_witness :
  exists r,
    getItemById "b" Sample.loaded = (Normal r, Sample.loaded)
    /\ first_with_id "b" (derived Sample.loaded) r.
Proof.
  apply (getItemById_first_match Sample.loaded "b");
    [reflexivity | discriminate].
Defined.

Lemma Set_add_In (x y : string) (s : list string) :
  In y (Set_add x s) <-> In y s \/ y = x.
Proof.
  unfold Set_add. destruct (existsb (String.eqb x) s) eqn:H.
  - apply existsb_exists in H. destruct H as (z & Hz & Heq).
    apply String.eqb_eq in Heq. subst z. split; [tauto|].
    intros [Hy| ->]; assumption.
  - rewrite in_app_iff. cbn. split; intros [Hy|Hy]; auto.
    + destruct Hy as [Hy|[]]; auto.
Qed.

Lemma Set_add_NoDup (x : string) (s : list string) :
  NoDup s -> NoDup (Set_add x s).
Proof.
  intros Hs. unfold Set_add. destruct (existsb (String.eqb x) s) eqn:H.
  - exact Hs.
  - apply NoDup_app; [exact Hs | repeat constructor; intros [] |].
    intros a Ha [<-|[]].
    assert (Hex : existsb (String.eqb x) s = true).
    { apply existsb_exists. exists x. split; [exact Ha|].
      apply String.eqb_refl. }
    congruence.
Qed.

Lemma fold_Set_add (xs : list string) :
  forall acc,
    NoDup acc ->
    NoDup (fold_left (fun s x => Set_add x s) xs acc)
    /\ forall y, In y (fold_left (fun s x => Set_add x s) xs acc)
                 <-> In y acc \/ In y xs.
Proof.
  induction xs as [|x xs IH]; intros acc Hacc; cbn [fold_left].
  - split; [exact Hacc|]. intros y. cbn. tauto.
  - destruct (IH (Set_add x acc) (Set_add_NoDup x acc Hacc)) as [Hnd Hin].
    split; [exact Hnd|]. intros y. rewrite Hin, Set_add_In. cbn.
    intuition congruence.
Qed.

(** A set built from a list has the values of the list, each once. *)
Lemma Set_of_spec (xs : list string) :
  NoDup (Set_of xs) /\ forall y, In y (Set_of xs) <-> In y xs.
Proof.
  destruct (fold_Set_add xs [] (NoDup_nil _)) as [Hnd Hin].
  split; [exact Hnd|]. intros y. unfold Set_of. rewrite Hin. cbn. tauto.
Qed.

(** X8: [getCurrentItemIds] returns the ids of the derived sequence as a
    set: every id of a derived item, nothing else, each once, so never more
    entries than there are derived items. *)
Theorem getCurrentItemIds_is_id_set :
  forall w : world,
    exists ids,
      getCurrentItemIds w = (Normal ids, w)
      /\ NoDup ids
      /\ (forall x, In x ids <-> exists it, In it (derived w) /\ id it = x)
      /\ (List.length ids <= List.length (derived w))%nat.
Proof.
  intros w. unfold getCurrentItemIds. step.
  destruct (Set_of_spec (map id (elements (selectedItems (this w)))))
    as [Hnd Hin].
  eexists. split; [reflexivity|]. split; [exact Hnd|]. split.
  - intros x. rewrite Hin, in_map_iff. unfold derived.
    split; intros (it & H1 & H2); exists it; tauto.
  - unfold derived. rewrite <- (length_map id).
    apply NoDup_incl_length; [exact Hnd|]. intros x Hx. apply Hin. exact Hx.
Qed.

(** X9: a provider just constructed, whatever its options, is empty: the
    total count is 0, every window reads as the empty sequence, no id is
    found, and nothing has been notified. *)
Theorem new_provider_is_empty :
  forall (o : UseQueryDataProviderOptions) (next : ref) (s e : Z)
         (i : string),
    let w := constructor o next in
    getTotalCount w = (Normal 0%Z, w)
    /\ (exists arr w', getData s e w = (Normal arr, w')
                       /\ elements arr = [] /\ reads_only w w')
    /\ getItemById i w = (Normal None, w)
    /\ getCurrentItemIds w = (Normal [], w)
    /\ trace w = [].
Proof.
  intros o next s e i w.
  assert (Hl : ~ placeholders_apply (this w)) by (intros (H & _); discriminate H).
  assert (He : ~ error_item_applies (this w))
    by (intros (H & _); apply H; reflexivity).
  split; [reflexivity|]. split; [|split; [|split; reflexivity]].
  - eexists _, _. split; [apply getData_normal; assumption|].
    cbn [elements]. split; [|split; reflexivity].
    change (elements (selectedItems (this w))) with (@nil ListItem).
    cbn [List.length Z.of_nat].
    destruct (Z.gtb_spec (Z.max 0 s) (Z.min (0 - 1) e)) as [_|H];
      [reflexivity | lia].
  - unfold getItemById. step.
    destruct (_ || _); reflexivity.
Qed.

(** ** More of the provider: what a window can hold *)

Lemma getData_error (w : world) (s e : Z) (err : Error) :
  loading_branch (this w) = false ->
  error_branch (this w) = Some err ->
  exists arr w' it,
    getData s e w = (Normal arr, w')
    /\ reads_only w w'
    /\ elements arr = [it]
    /\ is_error_item err it.
Proof.
  intros Hl He. eexists _, _, _. split; [|split; [|split]].
  - unfold getData. step. rewrite Hl, He. unfold_run.
    rewrite error_item_run. reflexivity.
  - split; reflexivity.
  - reflexivity.
  - unfold is_error_item; cbn. repeat split. eexists. reflexivity.
Qed.

Lemma slice_incl {A} (l : list A) (a b : Z) : incl (slice l a b) l.
Proof.
  unfold slice. intros x Hx.
  set (n := Z.to_nat _) in Hx. set (k := Z.to_nat _) in Hx.
  rewrite <- (firstn_skipn k l). apply in_or_app. right.
  rewrite <- (firstn_skipn n (skipn k l)). apply in_or_app. left. exact Hx.
Qed.

(** X10: [getData] always returns, and only reads the provider.  Unless it
    returns the error item, it returns at most as many items as the window
    [startIndex .. endIndex] has indices, none for an empty window; outside
    the two sentinel branches every item it returns is an item of the
    derived sequence. *)
Theorem getData_respects_window :
  forall (w : world) (startIndex endIndex : Z),
    exists arr w',
      getData startIndex endIndex w = (Normal arr, w')
      /\ reads_only w w'
      /\ (placeholders_apply (this w) \/ ~ error_item_applies (this w) ->
            (Z.of_nat (length_of arr)
             <= Z.max 0 (endIndex - startIndex + 1))%Z)
      /\ (~ placeholders_apply (this w) -> ~ error_item_applies (this w) ->
            incl (elements arr) (derived w)).
Proof.
  intros w s e.
  destruct (loading_branch (this w)) eqn:Hl.
  - apply loading_branch_true in Hl.
    destruct (getData_loading w s e Hl) as (arr & w' & Hrun & Hro & Hlen & _).
    exists arr, w'. split; [exact Hrun|]. split; [exact Hro|].
    split; [intros _; rewrite Hlen; lia | intros H; contradiction].
  - pose proof Hl as Hl'. apply loading_branch_false in Hl'.
    destruct (error_branch (this w)) as [err|] eqn:He.
    + pose proof He as He'. apply error_branch_some in He'.
      destruct (getData_error w s e err Hl He)
        as (arr & w' & it & Hrun & Hro & _).
      exists arr, w'. split; [exact Hrun|]. split; [exact Hro|].
      split; [intros [H|H]; tauto | tauto].
    + pose proof He as He'. apply error_branch_none in He'.
      pose proof (getData_normal w s e Hl' He') as Hrun. cbv zeta in Hrun.
      eexists _, _. split; [exact Hrun|]. split; [split; reflexivity|].
      cbn [elements length_of]. unfold derived.
      set (l := elements (selectedItems (this w))) in *.
      destruct (Z.gtb_spec (Z.max 0 s) (Z.min (Z.of_nat (List.length l) - 1) e));
        destruct (Z.geb_spec (Z.max 0 s) (Z.of_nat (List.length l)));
        cbn [orb].
      1-3: split; [intros _; cbn; lia | intros _ _ x []].
      split; [intros _ | intros _ _; apply slice_incl].
      destruct (slice_inside l (Z.max 0 s)
                  (Z.min (Z.of_nat (List.length l) - 1) e)) as [Hlen _];
        try lia.
      unfold length_of. cbn [elements]. lia.
Qed.

(** ** More of the provider: recomputation *)

Lemma selector_call_some (p : Provider) (sel : SelectorFunction) :
  selector_call p = Some sel ->
  currentSelector p = Some sel /\ elements (rawItems p) <> [].
Proof.
  unfold selector_call. destruct (currentSelector p) as [s|]; [|discriminate].
  destruct (0 <? length_of (rawItems p))%nat eqn:H; [|discriminate].
  intros [= ->]. split; [reflexivity|]. apply nonempty_true. exact H.
Qed.

Lemma selector_call_none (p : Provider) :
  currentSelector p = None \/ elements (rawItems p) = [] ->
  selector_call p = None.
Proof.
  unfold selector_call. intros [H|H].
  - rewrite H. reflexivity.
  - destruct (currentSelector p); [|reflexivity].
    unfold length_of. rewrite H. reflexivity.
Qed.

(** A recomputation whose selector returns [a] and whose subscribers
    return. *)
Lemma applySelector_selected (w : world) (sel : SelectorFunction) (a : Array) :
  selector_call (this w) = Some sel ->
  sel_apply sel (rawItems (this w)) (selectorDependencies (this w)) = Normal a ->
  first_throw (subscribers (this w)) = None ->
  let w' := exec applySelector w in
  eval applySelector w = Normal tt
  /\ selectedItems (this w') = a
  /\ rawItems (this w') = rawItems (this w)
  /\ error (this w') = error (this w)
  /\ isLoading (this w') = isLoading (this w)
  /\ options (this w') = options (this w).
Proof.
  intros Hcall Hsel Hsub. cbv zeta. unfold exec, eval.
  rewrite applySelector_unfold. cbv beta iota delta [try_catch].
  rewrite (try_selected (logged [CallApplySelector] w) sel a Hcall Hsel).
  cbn [this logged subscribers]. rewrite Hsub. repeat split.
Qed.

(** A recomputation that calls no selector and whose subscribers return. *)
Lemma applySelector_passed (w : world) :
  selector_call (this w) = None ->
  first_throw (subscribers (this w)) = None ->
  let w' := exec applySelector w in
  eval applySelector w = Normal tt
  /\ selectedItems (this w') = rawItems (this w)
  /\ rawItems (this w') = rawItems (this w)
  /\ error (this w') = error (this w)
  /\ isLoading (this w') = isLoading (this w)
  /\ options (this w') = options (this w)
  /\ next_ref w' = next_ref w.
Proof.
  intros Hcall Hsub. cbv zeta. unfold exec, eval.
  rewrite applySelector_unfold. cbv beta iota delta [try_catch].
  rewrite (try_pass_through (logged [CallApplySelector] w) Hcall).
  cbn [this logged subscribers]. rewrite Hsub. repeat split.
Qed.

(** Reading the whole of a non-empty derived sequence. *)
Lemma getData_full_range (w : world) :
  derived w <> [] ->
  getTotalCount w = (Normal (Z.of_nat (List.length (derived w))), w)
  /\ exists arr w',
       getData 0 (Z.of_nat (List.length (derived w)) - 1) w = (Normal arr, w')
       /\ elements arr = derived w.
Proof.
  intros Hne. unfold derived in *.
  assert (Hl : ~ placeholders_apply (this w)) by (intros (_ & H & _); contradiction).
  assert (He : ~ error_item_applies (this w)) by (intros (_ & H & _); contradiction).
  split.
  - unfold getTotalCount. step.
    rewrite (proj2 (loading_branch_false _) Hl).
    rewrite (proj2 (error_branch_none _) He). reflexivity.
  - eexists _, _. split; [apply getData_normal; assumption|].
    cbn [elements]. set (l := elements (selectedItems (this w))) in *.
    change (Z.max 0 0) with 0%Z. rewrite Z.min_id.
    destruct l as [|x l'] eqn:El; [congruence|].
    destruct (Z.gtb_spec 0 (Z.of_nat (List.length (x :: l')) - 1));
      [cbn [List.length] in *; lia|].
    destruct (Z.geb_spec 0 (Z.of_nat (List.length (x :: l'))));
      [cbn [List.length] in *; lia|].
    cbn [orb].
    replace (Z.of_nat (List.length (x :: l')) - 1 + 1)%Z
      with (Z.of_nat (List.length (x :: l'))) by lia.
    apply slice_whole.
Qed.

Ltac fields :=
  cbn [stored selector_stored this next_ref trace rawItems selectedItems
       subscribers isLoading error options currentSelector
       selectorDependencies set_error set_isLoading set_rawItems
       set_selectorDependencies set_currentSelector set_selectedItems].

Ltac fields_in H :=
  cbn [stored selector_stored this next_ref trace rawItems selectedItems
       subscribers isLoading error options currentSelector
       selectorDependencies set_error set_isLoading set_rawItems
       set_selectorDependencies set_currentSelector set_selectedItems] in H.




(** X12: the derived sequence is the selector's output.  When an applied
    [updateRawData], or an [updateSelector] that passes the gate, calls the
    selector (a selector is set and the raw sequence is non-empty), the
    selector returns [a] on the raw array and the stored dependencies, and
    no subscriber throws, the method returns with [a] as the derived
    sequence; if [a] is non-empty, the total count is its length and the
    full window reads its items. *)
Theorem derived_is_selector_output :
  (forall (w : world) (items : Array) (l : bool) (e : option Error)
          (sel : SelectorFunction) (a : Array),
      hasRawDataChanged (this w) items l e = true ->
      currentSelector (this w) = Some sel ->
      elements items <> [] ->
      sel_apply sel items (selectorDependencies (this w)) = Normal a ->
      no_throw (subscribers (this w)) ->
      let w1 := exec (updateRawData items l e) w in
      eval (updateRawData items l e) w = Normal tt
      /\ selectedItems (this w1) = a
      /\ rawItems (this w1) = items
      /\ error (this w1) = e
      /\ (elements a <> [] ->
            getTotalCount w1 = (Normal (Z.of_nat (length_of a)), w1)
            /\ exists arr w',
                 getData 0 (Z.of_nat (length_of a) - 1) w1 = (Normal arr, w')
                 /\ elements arr = elements a))
  /\ (forall (w : world) (sel : SelectorFunction) (deps : list value)
             (a : Array),
         selector_neq (currentSelector (this w)) (Some sel)
         || negb (shallowEqual (selectorDependencies (this w)) deps) = true ->
         elements (rawItems (this w)) <> [] ->
         sel_apply sel (rawItems (this w)) deps = Normal a ->
         no_throw (subscribers (this w)) ->
         let w1 := exec (updateSelector (Some sel) deps) w in
         eval (updateSelector (Some sel) deps) w = Normal tt
         /\ selectedItems (this w1) = a
         /\ rawItems (this w1) = rawItems (this w)
         /\ error (this w1) = error (this w)
         /\ (elements a <> [] ->
               getTotalCount w1 = (Normal (Z.of_nat (length_of a)), w1)
               /\ exists arr w',
                    getData 0 (Z.of_nat (length_of a) - 1) w1 = (Normal arr, w')
                    /\ elements arr = elements a)).
Proof.
  split.
  - intros w items l e sel a Hch Hcur Hne Hsel Hsub w1.
    destruct (called_no_throw _ Hsub) as [_ Hft].
    assert (Hcall : selector_call (this (stored items l e w)) = Some sel).
    { unfold selector_call. fields. rewrite Hcur.
      apply nonempty_true in Hne. rewrite Hne. reflexivity. }
    destruct (applySelector_selected (stored items l e w) sel a Hcall Hsel Hft)
      as (Hev & Hs & Hr & He & _).
    subst w1. unfold exec, eval in *.
    rewrite (updateRawData_changed w items l e Hch).
    refine (conj Hev (conj Hs (conj Hr (conj He _)))).
    intros Ha.
    pose proof (getData_full_range
                  (snd (applySelector (stored items l e w)))) as Hfull.
    unfold derived in Hfull. rewrite Hs in Hfull. apply (Hfull Ha).
  - intros w sel deps a Hch Hne Hsel Hsub w1.
    destruct (called_no_throw _ Hsub) as [_ Hft].
    assert (Hcall : selector_call (this (selector_stored (Some sel) deps w))
                    = Some sel).
    { unfold selector_call. fields.
      apply nonempty_true in Hne. rewrite Hne. reflexivity. }
    destruct (applySelector_selected (selector_stored (Some sel) deps w)
                sel a Hcall Hsel Hft) as (Hev & Hs & Hr & He & _).
    subst w1. unfold exec, eval in *.
    rewrite (updateSelector_changed w (Some sel) deps Hch).
    refine (conj Hev (conj Hs (conj Hr (conj He _)))).
    intros Ha.
    pose proof (getData_full_range
                  (snd (applySelector (selector_stored (Some sel) deps w))))
      as Hfull.
    unfold derived in Hfull. rewrite Hs in Hfull. apply (Hfull Ha).
Qed.

Lemma derived_is_selector_output_witness :
  elements (selectedItems
              (this (exec (updateSelector (Some Sample.first_only) [])
                       Sample.loaded)))
  = [Sample.item_a].
Proof.
  destruct derived_is_selector_output as [_ Hsel].
  destruct (Hsel Sample.loaded Sample.first_only []
              {| arr_ref := 132; elements := [Sample.item_a] |})
    as (_ & Hs & _).
  - reflexivity.
  - discriminate.
  - reflexivity.
  - repeat constructor.
  - rewrite Hs. reflexivity.
Defined.

(** X13: pass-through hands over the raw array itself.  When no subscriber
    throws, an applied [updateRawData] that calls no selector (none is set,
    or the new sequence is empty) leaves the array it was given as raw and
    as derived sequence, with the flags it was given; and
    [updateSelector(null, deps)] that passes the gate makes the derived
    sequence the raw array again. *)
Theorem pass_through_is_the_raw_array :
  (forall (w : world) (items : Array) (l : bool) (e : option Error),
      hasRawDataChanged (this w) items l e = true ->
      currentSelector (this w) = None \/ elements items = [] ->
      no_throw (subscribers (this w)) ->
      let w1 := exec (updateRawData items l e) w in
      eval (updateRawData items l e) w = Normal tt
      /\ selectedItems (this w1) = items
      /\ rawItems (this w1) = items
      /\ error (this w1) = e
      /\ isLoading (this w1) = l)
  /\ (forall (w : world) (deps : list value),
         selector_neq (currentSelector (this w)) None
         || negb (shallowEqual (selectorDependencies (this w)) deps) = true ->
         no_throw (subscribers (this w)) ->
         let w1 := exec (updateSelector None deps) w in
         eval (updateSelector None deps) w = Normal tt
         /\ selectedItems (this w1) = rawItems (this w)
         /\ rawItems (this w1) = rawItems (this w)).
Proof.
  split.
  - intros w items l e Hch Hno Hsub w1.
    destruct (called_no_throw _ Hsub) as [_ Hft].
    assert (Hcall : selector_call (this (stored items l e w)) = None)
      by (apply selector_call_none; exact Hno).
    destruct (applySelector_passed (stored items l e w) Hcall Hft)
      as (Hev & Hs & Hr & He & Hl & _).
    subst w1. unfold exec, eval in *.
    rewrite (updateRawData_changed w items l e Hch).
    repeat split; assumption.
  - intros w deps Hch Hsub w1.
    destruct (called_no_throw _ Hsub) as [_ Hft].
    assert (Hcall : selector_call (this (selector_stored None deps w)) = None)
      by (apply selector_call_none; left; reflexivity).
    destruct (applySelector_passed (selector_stored None deps w) Hcall Hft)
      as (Hev & Hs & Hr & _).
    subst w1. unfold exec, eval in *.
    rewrite (updateSelector_changed w None deps Hch).
    repeat split; assumption.
Qed.

Lemma pass_through_is_the_raw_array_witness :
  selectedItems
    (this (exec (updateRawData Sample.items_abc false None) Sample.fresh))
  = Sample.items_abc
  /\ selectedItems (this (exec (updateSelector None []) Sample.selecting))
     = Sample.items_abc.
Proof.
  destruct pass_through_is_the_raw_array as [Hraw Hsel]. split.
  - apply (Hraw Sample.fresh Sample.items_abc false None).
    + reflexivity.
    + left. reflexivity.
    + repeat constructor.
  - apply (Hsel Sample.selecting []).
    + reflexivity.
    + repeat constructor.
Defined.



(** X15: [updateSelector] never touches the raw sequence or the loading
    flag, and when the recomputation it runs completes it leaves the error
    as it was: an error stored by an earlier selector failure stays after
    the selector is replaced by one that works. *)
Theorem updateSelector_keeps_flags :
  forall (w : world) (selector : option SelectorFunction) (deps : list value),
    let w1 := exec (updateSelector selector deps) w in
    rawItems (this w1) = rawItems (this w)
    /\ isLoading (this w1) = isLoading (this w)
    /\ (recomputation_completes (this (selector_stored selector deps w)) ->
          error (this w1) = error (this w)).
Proof.
  intros w selector deps w1. subst w1. unfold exec.
  destruct (selector_neq (currentSelector (this w)) selector
            || negb (shallowEqual (selectorDependencies (this w)) deps))
    eqn:Hch.
  - rewrite (updateSelector_changed w selector deps Hch).
    pose proof (applySelector_frame (selector_stored selector deps w)) as Hf.
    cbv zeta in Hf. unfold exec in Hf.
    destruct Hf as (Hraw & Hload & _).
    split; [exact Hraw|]. split; [exact Hload|].
    intros Hc. apply applySelector_completes in Hc. cbv zeta in Hc.
    destruct Hc as (_ & Herr & _). exact Herr.
  - rewrite (updateSelector_unchanged w selector deps Hch).
    repeat split.
Qed.

Lemma updateSelector_keeps_flags_witness :
  option_map message
    (error (this (exec (updateSelector None []) Sample.broken)))
  = Some "Selector error: boom"
  /\ selectedItems (this (exec (updateSelector None []) Sample.broken))
     = Sample.items_abc.
Proof.
  split; [|reflexivity].
  destruct (updateSelector_keeps_flags Sample.broken None [])
    as (_ & _ & Herr).
  rewrite Herr; [reflexivity|]. split.
  - intros selector Hcall. discriminate Hcall.
  - reflexivity.
Defined.






(** ** The selector library *)

Import Selectors Hook.

Lemma type_in_spec (types : list string) (it : ListItem) :
  type_in (Set_of types) it = true <-> typed_in types it.
Proof.
  unfold type_in, typed_in. destruct (Set_of_spec types) as [_ Hin].
  destruct (type it) as [t|].
  - split.
    + intros H. apply andb_true_iff in H. destruct H as [Hne Hex].
      apply negb_true_iff in Hne. apply String.eqb_neq in Hne.
      apply existsb_exists in Hex. destruct Hex as (u & Hu & Heq).
      apply String.eqb_eq in Heq. subst u.
      exists t. split; [reflexivity|]. split; [exact Hne|].
      apply Hin. exact Hu.
    + intros (u & Hu & Hne & Hlisted). injection Hu as <-.
      apply andb_true_iff. split.
      * apply negb_true_iff. apply String.eqb_neq. exact Hne.
      * apply existsb_exists. exists t.
        split; [apply Hin; exact Hlisted | apply String.eqb_refl].
  - split; [discriminate|]. intros (u & Hu & _). discriminate.
Qed.

Lemma filterByTypes_run (types : list string) (allItems : Array)
    (deps : list value) (next : ref) :
  types <> [] ->
  filterByTypes types allItems deps next =
  (Normal {| arr_ref := next;
             elements := filter (type_in (Set_of types)) (elements allItems) |},
   S next).
Proof.
  intros Hne. unfold filterByTypes. destruct types; [congruence|].
  reflexivity.
Qed.

(** X17: [filterByTypes(types)] with an empty list returns the array it
    was given, the same object.  With a non-empty list it returns a new
    array that keeps, in their order, exactly the items whose [type] is a
    non-empty string listed in [types]: an item without type or with the
    empty type is dropped, even when the empty string is listed. *)
Theorem filterByTypes_selects_listed_types :
  forall (types : list string) (allItems : Array) (deps : list value)
         (next : ref),
    (types = [] ->
       filterByTypes types allItems deps next = (Normal allItems, next))
    /\ (types <> [] ->
          exists out keep,
            filterByTypes types allItems deps next =
              (Normal {| arr_ref := next; elements := out |}, S next)
            /\ out = filter keep (elements allItems)
            /\ forall it, In it out <->
                 In it (elements allItems) /\ typed_in types it).
Proof.
  intros types allItems deps next. split.
  - intros ->. reflexivity.
  - intros Hne. eexists _, _. split; [apply filterByTypes_run; exact Hne|].
    split; [reflexivity|]. intros it. rewrite filter_In, type_in_spec.
    reflexivity.
Qed.

Lemma filterByTypes_selects_listed_types_witness :
  returned (filterByTypes ["news"; ""] Sample.mixed [] 300)
  = [Sample.news; Sample.news].
Proof.
  destruct (filterByTypes_selects_listed_types ["news"; ""] Sample.mixed [] 300)
    as [_ Hsome].
  destruct Hsome as (out & keep & Hrun & _); [discriminate|].
  unfold returned. rewrite Hrun. cbn [fst elements].
  vm_compute in Hrun. injection Hrun as <-. reflexivity.
Defined.

Lemma filter_twice {A} (f : A -> bool) (l : list A) :
  filter f (filter f l) = filter f l.
Proof.
  induction l as [|x l IH]; [reflexivity|]. cbn.
  destruct (f x) eqn:H; cbn; rewrite ?H, IH; reflexivity.
Qed.

(** X18: [filterByTypes(types)] is idempotent: applied to its own result
    it returns the same items. *)
Theorem filterByTypes_idempotent :
  forall (types : list string) (allItems : Array) (deps deps' : list value)
         (next next' : ref),
    exists b next1,
      filterByTypes types allItems deps next = (Normal b, next1)
      /\ returned (filterByTypes types b deps' next') = elements b.
Proof.
  intros types allItems deps deps' next next'.
  destruct types as [|t ts] eqn:Ht.
  - exists allItems, next. split; reflexivity.
  - rewrite <- Ht. assert (Hne : types <> []) by (subst; discriminate).
    eexists _, _. split; [apply filterByTypes_run; exact Hne|].
    rewrite (filterByTypes_run types _ deps' next' Hne).
    unfold returned. cbn [fst elements]. apply filter_twice.
Qed.

(** X19: [combine] applies its selectors from left to right, each on the
    result of the one before and with the same dependencies.  Combining no
    selector returns the input array itself; combining one selector is
    that selector; combining a selector and others is applying it to the
    input and the dependencies and then, unless it threw, combining the
    others on the array it returned, with the same dependencies; and
    combining two lists of selectors is combining the first list and then,
    unless that threw, the second on its result. *)
Theorem combine_composes :
  forall (s : Selector) (s1 s2 : list Selector) (allItems : Array)
         (deps : list value) (next : ref),
    combine [] allItems deps next = (Normal allItems, next)
    /\ combine [s] allItems deps next = s allItems deps next
    /\ combine (s :: s1) allItems deps next =
       match s allItems deps next with
       | (Normal filtered, next') => combine s1 filtered deps next'
       | (Throw e, next') => (Throw e, next')
       end
    /\ combine (s1 ++ s2) allItems deps next =
       match combine s1 allItems deps next with
       | (Normal filtered, next') => combine s2 filtered deps next'
       | (Throw e, next') => (Throw e, next')
       end.
Proof.
  intros s s1 s2 allItems deps next. split; [reflexivity|]. split.
  { unfold combine. cbn [reduce]. unfold_run.
    destruct (s allItems deps next) as [[a|e] n]; reflexivity. }
  split.
  { unfold combine. cbn [reduce]. unfold_run.
    destruct (s allItems deps next) as [[a|e] n]; reflexivity. }
  unfold combine. revert allItems next.
  induction s1 as [|s' s1 IH]; intros allItems next.
  - reflexivity.
  - cbn [app reduce]. unfold_run.
    destruct (s' allItems deps next) as [[a|e] n]; [apply IH | reflexivity].
Qed.

(** X20: combining two type filters is their conjunction: with both lists
    non-empty, [combine(filterByTypes(t1), filterByTypes(t2))] keeps
    exactly the items whose type is listed in both. *)
Theorem combine_filters_is_and :
  forall (t1 t2 : list string) (allItems : Array) (deps : list value)
         (next : ref),
    t1 <> [] -> t2 <> [] ->
    exists b next',
      combine [filterByTypes t1; filterByTypes t2] allItems deps next
        = (Normal b, next')
      /\ forall it, In it (elements b) <->
           In it (elements allItems) /\ typed_in t1 it /\ typed_in t2 it.
Proof.
  intros t1 t2 allItems deps next H1 H2.
  eexists _, _. split.
  - unfold combine. cbn [reduce]. unfold_run.
    rewrite (filterByTypes_run t1 _ _ _ H1).
    rewrite (filterByTypes_run t2 _ _ _ H2). reflexivity.
  - intros it. cbn [elements].
    rewrite filter_In, filter_In, !type_in_spec. tauto.
Qed.

Lemma combine_filters_is_and_witness :
  returned (combine [filterByTypes ["news"; "blog"]; filterByTypes ["blog"]]
              Sample.mixed [] 300)
  = [Sample.blog].
Proof.
  destruct (combine_filters_is_and ["news"; "blog"] ["blog"] Sample.mixed [] 300)
    as (b & n & Hrun & _); [discriminate | discriminate |].
  unfold returned. rewrite Hrun. cbn [fst].
  vm_compute in Hrun. injection Hrun as <- _. reflexivity.
Defined.

(** X21: [combine] lets the first exception through: when the selectors
    before it return and one selector throws, [combine] throws that
    exception, whatever selectors follow. *)
Theorem combine_propagates_exception :
  forall (before after : list Selector) (thrower : Selector)
         (allItems filtered : Array) (deps : list value)
         (next next' next'' : ref) (e : value),
    combine before allItems deps next = (Normal filtered, next') ->
    thrower filtered deps next' = (Throw e, next'') ->
    combine (before ++ thrower :: after) allItems deps next
    = (Throw e, next'').
Proof.
  intros before after thrower allItems filtered deps next next' next'' e
    Hb Ht.
  unfold combine in *. revert allItems next Hb.
  induction before as [|s before IH]; intros allItems next Hb.
  - cbn [reduce] in Hb. unfold_run. injection Hb as -> ->.
    cbn [app reduce]. unfold_run. rewrite Ht. reflexivity.
  - cbn [app reduce] in *. unfold_run.
    destruct (s allItems deps next) as [[a|e'] n]; [|discriminate].
    apply IH. exact Hb.
Qed.

Lemma combine_propagates_exception_witness :
  combine ([filterByTypes ["news"]]
           ++ Sample.throwing_library_selector :: [filterByTypes ["blog"]])
    Sample.mixed [] 300
  = (Throw Sample.boom, 301).
Proof.
  apply (combine_propagates_exception [filterByTypes ["news"]]
           [filterByTypes ["blog"]] Sample.throwing_library_selector
           Sample.mixed
           {| arr_ref := 300; elements := [Sample.news; Sample.news] |}
           [] 300 301 301 Sample.boom); reflexivity.
Defined.

(** ** The hook's effect *)

(** When no subscriber throws and the selector does not throw [null] or
    [undefined], a recomputation returns. *)
Lemma applySelector_returns (w : world) :
  first_throw (subscribers (this w)) = None ->
  ~ selector_throws_nullish (this w) ->
  eval applySelector w = Normal tt.
Proof.
  intros Hsub Hn. unfold eval.
  rewrite applySelector_unfold. cbv beta iota delta [try_catch].
  set (w0 := logged [CallApplySelector] w).
  destruct (selector_call (this w0)) as [sel|] eqn:Hcall.
  - destruct (sel_apply sel (rawItems (this w0))
                (selectorDependencies (this w0))) as [a|exn] eqn:Hsel.
    + rewrite (try_selected w0 sel a Hcall Hsel).
      subst w0. cbn [this logged subscribers]. rewrite Hsub. reflexivity.
    + rewrite (try_thrown w0 sel exn Hcall Hsel).
      assert (Hnull : nullish exn = false).
      { destruct (nullish exn) eqn:Hnull; [|reflexivity].
        exfalso. apply Hn. exists exn. split; [|exact Hnull].
        destruct (selector_call_some _ _ Hcall) as [Hcur Hne].
        exists sel. repeat split; assumption. }
      rewrite (catch_run _ _ Hnull).
      subst w0. cbn [this logged subscribers fst]. rewrite Hsub. reflexivity.
  - rewrite (try_pass_through w0 Hcall).
    subst w0. cbn [this logged subscribers]. rewrite Hsub. reflexivity.
Qed.

Lemma updateRawData_returns (w : world) (items : Array) (l : bool)
    (e : option Error) :
  no_throw (subscribers (this w)) ->
  ~ selector_throws_nullish (this (stored items l e w)) ->
  eval (updateRawData items l e) w = Normal tt.
Proof.
  intros Hsub Hn. destruct (called_no_throw _ Hsub) as [_ Hft].
  unfold eval. destruct (hasRawDataChanged (this w) items l e) eqn:Hch.
  - rewrite (updateRawData_changed w items l e Hch).
    apply (applySelector_returns (stored items l e w)); assumption.
  - rewrite (updateRawData_unchanged w items l e Hch). reflexivity.
Qed.

(** With an empty raw sequence no selector is called. *)
Lemma empty_never_throws (p : Provider) :
  elements (rawItems p) = [] ->
  ~ selector_throws_nullish p.
Proof.
  intros Hempty (exn & (sel & _ & Hne & _) & _). apply Hne. exact Hempty.
Qed.

Lemma try_catch_returns {A} (m : Run A) (h : value -> Run A) (w : world)
    (a : A) :
  eval m w = Normal a -> try_catch m h w = m w.
Proof.
  unfold eval, try_catch. destruct (m w) as [[x|e] w']; cbn [fst].
  - reflexivity.
  - discriminate.
Qed.





Lemma effect_without_data (w : world) (transformer : Transformer)
    (l r : bool) (e : option Error) :
  no_throw (subscribers (this w)) ->
  (e <> None \/ l = true) ->
  updateProviderEffect transformer None l r e w =
  updateRawData {| arr_ref := next_ref w; elements := [] |}
    (match e with Some _ => false | None => true end) e (after_alloc w).
Proof.
  intros Hsub Hcase. unfold updateProviderEffect.
  rewrite (try_catch_returns _ _ w tt).
  - destruct e as [err|]; [reflexivity|].
    destruct Hcase as [H| ->]; [congruence | reflexivity].
  - destruct e as [err|].
    + step. apply (updateRawData_returns (after_alloc w)); [exact Hsub|].
      apply empty_never_throws. reflexivity.
    + destruct Hcase as [H| ->]; [congruence|].
      step. apply (updateRawData_returns (after_alloc w)); [exact Hsub|].
      apply empty_never_throws. reflexivity.
Qed.

(** X24: loading without data shows placeholders and drops what was
    there.  From a provider that is not loading, with
    [showPlaceholdersWhileLoading] on and no subscriber that throws, the
    effect run with no data, no error and [isLoading] leaves an empty raw
    sequence; the total count is [placeholderCount] and every window reads
    as placeholders. *)
Theorem loading_without_data_shows_placeholders :
  forall (w : world) (transformer : Transformer) (isRefetching : bool)
         (startIndex endIndex : Z),
    no_throw (subscribers (this w)) ->
    isLoading (this w) = false ->
    showPlaceholdersWhileLoading (options (this w)) = true ->
    let w1 := exec (updateProviderEffect transformer None true isRefetching
                      None) w in
    eval (updateProviderEffect transformer None true isRefetching None) w
      = Normal tt
    /\ elements (rawItems (this w1)) = []
    /\ error (this w1) = None
    /\ getTotalCount w1 = (Normal (placeholderCount (options (this w))), w1)
    /\ placeholders_returned is_placeholder w1 startIndex endIndex.
Proof.
  intros w t r s e Hsub Hload Hshow w1.
  destruct (called_no_throw _ Hsub) as [_ Hft].
  set (empty := {| arr_ref := next_ref w; elements := [] |}).
  pose proof (effect_without_data w t true r None Hsub (or_intror eq_refl))
    as Hrun. fold empty in Hrun.
  assert (Hch : hasRawDataChanged (this (after_alloc w)) empty true None = true).
  { apply hasRawDataChanged_flags. cbn [after_alloc this]. rewrite Hload.
    reflexivity. }
  assert (Hcall : selector_call (this (stored empty true None (after_alloc w)))
                  = None)
    by (apply selector_call_none; right; reflexivity).
  destruct (applySelector_passed (stored empty true None (after_alloc w))
              Hcall Hft) as (Hev & Hs & Hraw & Herr & Hl & Hopt & _).
  subst w1. unfold exec, eval in *. rewrite Hrun.
  rewrite (updateRawData_changed _ empty true None Hch).
  set (w1 := snd (applySelector (stored empty true None (after_alloc w)))) in *.
  fields_in Hs. fields_in Hraw. fields_in Herr. fields_in Hl. fields_in Hopt.
  cbn [after_alloc this] in Hopt.
  assert (Happ : placeholders_apply (this w1)).
  { repeat split; [exact Hl | rewrite Hs; reflexivity
                  | rewrite Hopt; exact Hshow]. }
  split; [exact Hev|]. split; [rewrite Hraw; reflexivity|].
  split; [exact Herr|]. split.
  - unfold getTotalCount. step.
    rewrite (proj2 (loading_branch_true _) Happ), Hopt. reflexivity.
  - apply getData_loading. exact Happ.
Qed.

Lemma loading_without_data_shows_placeholders_witness :
  getTotalCount
    (exec (updateProviderEffect Sample.constant_transformer None true false
             None) Sample.loaded)
  = (Normal 5%Z,
     exec (updateProviderEffect Sample.constant_transformer None true false
             None) Sample.loaded).
Proof.
  destruct (loading_without_data_shows_placeholders Sample.loaded
              Sample.constant_transformer false 0 2)
    as (_ & _ & _ & Hcount & _).
  - repeat constructor.
  - reflexivity.
  - reflexivity.
  - exact Hcount.
Defined.

(** X25: an error without data shows the error item and drops what was
    there.  From a provider that holds no error, with [showErrorItem] on
    and no subscriber that throws, the effect run with no data and an error
    stores that very error with [isLoading = false] (whatever [isLoading]
    the query reports) over an empty raw sequence; the total count is 1 and
    every window reads as the error item of that error. *)
Theorem error_without_data_shows_error_item :
  forall (w : world) (transformer : Transformer)
         (isLoading' isRefetching : bool) (err : Error)
         (startIndex endIndex : Z),
    no_throw (subscribers (this w)) ->
    error (this w) = None ->
    showErrorItem (options (this w)) = true ->
    let w1 := exec (updateProviderEffect transformer None isLoading'
                      isRefetching (Some err)) w in
    eval (updateProviderEffect transformer None isLoading' isRefetching
            (Some err)) w = Normal tt
    /\ elements (rawItems (this w1)) = []
    /\ error (this w1) = Some err
    /\ isLoading (this w1) = false
    /\ getTotalCount w1 = (Normal 1%Z, w1)
    /\ exists arr w' it,
         getData startIndex endIndex w1 = (Normal arr, w')
         /\ elements arr = [it]
         /\ is_error_item err it.
Proof.
  intros w t l r err s e Hsub Hnone Hshow w1.
  destruct (called_no_throw _ Hsub) as [_ Hft].
  set (empty := {| arr_ref := next_ref w; elements := [] |}).
  assert (Hcase : Some err <> None \/ l = true) by (left; discriminate).
  pose proof (effect_without_data w t l r (Some err) Hsub Hcase) as Hrun.
  fold empty in Hrun. cbv beta iota in Hrun.
  assert (Hch : hasRawDataChanged (this (after_alloc w)) empty false
                  (Some err) = true).
  { apply hasRawDataChanged_flags. cbn [after_alloc this]. rewrite Hnone.
    apply orb_true_r. }
  assert (Hcall : selector_call
                    (this (stored empty false (Some err) (after_alloc w)))
                  = None)
    by (apply selector_call_none; right; reflexivity).
  destruct (applySelector_passed
              (stored empty false (Some err) (after_alloc w)) Hcall Hft)
    as (Hev & Hs & Hraw & Herr & Hl & Hopt & _).
  subst w1. unfold exec, eval in *. rewrite Hrun.
  rewrite (updateRawData_changed _ empty false (Some err) Hch).
  set (w1 := snd (applySelector
                    (stored empty false (Some err) (after_alloc w)))) in *.
  fields_in Hs. fields_in Hraw. fields_in Herr. fields_in Hl. fields_in Hopt.
  cbn [after_alloc this] in Hopt.
  assert (Hlb : loading_branch (this w1) = false)
    by (unfold loading_branch; rewrite Hl; reflexivity).
  assert (Heb : error_branch (this w1) = Some err).
  { unfold error_branch, length_of. rewrite Herr, Hs, Hopt, Hshow.
    reflexivity. }
  split; [exact Hev|]. split; [rewrite Hraw; reflexivity|].
  split; [exact Herr|]. split; [exact Hl|]. split.
  - unfold getTotalCount. step. rewrite Hlb, Heb. reflexivity.
  - destruct (getData_error w1 s e err Hlb Heb)
      as (arr & w' & it & Hget & _ & Harr & Hit).
    exists arr, w', it. split; [exact Hget|]. split; assumption.
Qed.

Lemma error_without_data_shows_error_item_witness :
  getTotalCount
    (exec (updateProviderEffect Sample.constant_transformer None true false
             (Some Sample.failed)) Sample.loaded)
  = (Normal 1%Z,
     exec (updateProviderEffect Sample.constant_transformer None true false
             (Some Sample.failed)) Sample.loaded).
Proof.
  destruct (error_without_data_shows_error_item Sample.loaded
              Sample.constant_transformer true false Sample.failed 0 2)
    as (_ & _ & _ & _ & Hcount & _).
  - repeat constructor.
  - reflexivity.
  - reflexivity.
  - exact Hcount.
Defined.

(** ** The default transformer *)

From Stdlib Require Import DecimalPos DecimalZ.

Lemma string_of_Z_inj (a b : Z) : string_of_Z a = string_of_Z b -> a = b.
Proof.
  assert (Hback : forall z,
            NilZero.int_of_string (string_of_Z z) = Some (Z.to_int z)).
  { intros z. unfold string_of_Z. apply NilZero.isi.
    - destruct z as [|p|p]; cbn; intros H; try discriminate.
      injection H as H. exact (Unsigned.to_uint_nonnil p H).
    - destruct z as [|p|p]; cbn; intros H; try discriminate.
      injection H as H. exact (Unsigned.to_uint_nonnil p H). }
  intros H. apply to_int_inj.
  pose proof (Hback a) as Ha. rewrite H, Hback in Ha.
  injection Ha as Ha. symmetry. exact Ha.
Qed.

Lemma or_string_nonempty (a b : option string) (s : string) :
  or_string a b = Some s ->
  (forall t, b = Some t -> t <> "") ->
  s <> "".
Proof.
  unfold or_string. destruct a as [x|].
  - destruct (String.eqb_spec x "") as [->|Hne].
    + intros Hb Hall. exact (Hall s Hb).
    + intros [= <-] _. exact Hne.
  - intros Hb Hall. exact (Hall s Hb).
Qed.

Lemma or_string_fallback (a b : option string) :
  or_string a None = None -> or_string a b = b.
Proof.
  unfold or_string. destruct a as [x|]; [|reflexivity].
  destruct (String.eqb x ""); [reflexivity | discriminate].
Qed.

Lemma or_string_none_inv (a b : option string) :
  or_string a b = None -> or_string a None = None /\ b = None.
Proof.
  unfold or_string. destruct a as [x|]; [|tauto].
  destruct (String.eqb x ""); [tauto | discriminate].
Qed.

Section DefaultTransformerFacts.
Variable object_toString : ref -> object -> string.

Lemma default_id_nonempty (item : value) (index : nat) :
  default_id object_toString item index <> "".
Proof.
  unfold default_id.
  destruct (or_string _ _) as [s|] eqn:H.
  - apply (or_string_nonempty _ _ _ H). intros t Ht.
    apply (or_string_nonempty _ _ _ Ht). intros u Hu.
    apply (or_string_nonempty _ _ _ Hu). intros v [= <-]. discriminate.
  - apply or_string_none_inv in H. destruct H as [_ H].
    apply or_string_none_inv in H. destruct H as [_ H].
    apply or_string_none_inv in H. destruct H as [_ H]. discriminate.
Qed.

Lemma default_id_fallback (item : value) (index : nat) :
  lacks_id object_toString item ->
  default_id object_toString item index
  = "item-" ++ string_of_Z (Z.of_nat index).
Proof.
  unfold lacks_id, default_id. intros H.
  apply or_string_none_inv in H. destruct H as [H1 H].
  apply or_string_none_inv in H. destruct H as [H2 H].
  apply or_string_none_inv in H. destruct H as [H3 _].
  rewrite (or_string_fallback _ _ H1), (or_string_fallback _ _ H2),
    (or_string_fallback _ _ H3). reflexivity.
Qed.

Lemma default_type_truthy (item : value) :
  default_type item = VUndefined \/ truthy (default_type item) = true.
Proof.
  unfold default_type, or_value.
  destruct (truthy (opt_get item "type")) eqn:H1; [right; exact H1|].
  destruct (truthy (opt_get item "category")) eqn:H2;
    [right; exact H2 | left; reflexivity].
Qed.

(** The loop of [data.map] in [defaultTransformer]. *)
Lemma map_from_spec (data : list value) :
  forall (index : nat) (next : ref),
  exists out next',
    map_from object_toString data index next = (Normal out, next')
    /\ map t_content out = data
    /\ forall i t, nth_error out i = Some t ->
         t_id t = default_id object_toString (t_content t) (index + i)
         /\ t_type t = default_type (t_content t).
Proof.
  induction data as [|item rest IH]; intros index next.
  - exists [], next. split; [reflexivity|]. split; [reflexivity|].
    intros [|i] t H; discriminate.
  - destruct (IH (S index) (S next)) as (out & next' & Hrun & Hmap & Hall).
    eexists (_ :: out), next'. split; [|split].
    + cbn [map_from]. unfold fresh_ref. unfold_run. rewrite Hrun.
      reflexivity.
    + cbn [map t_content]. rewrite Hmap. reflexivity.
    + intros [|i] t Ht.
      * injection Ht as <-. cbn [t_id t_type t_content].
        rewrite Nat.add_0_r. split; reflexivity.
      * replace (index + S i)%nat with (S index + i)%nat by lia.
        apply Hall. exact Ht.
Qed.

(** X26: [defaultTransformer] keeps every datum, in order, as the content
    of an item; no item it builds has an empty id; and the type of an item
    is [undefined] or a truthy value, never [null], [false], [0] or the
    empty string. *)
Theorem defaultTransformer_keeps_data :
  forall (data : list value) (next : ref),
    exists r out next',
      defaultTransformer object_toString data next = (Normal (r, out), next')
      /\ map t_content out = data
      /\ Forall (fun t => t_id t <> "") out
      /\ Forall (fun t => t_type t = VUndefined \/ truthy (t_type t) = true)
           out.
Proof.
  intros data next.
  destruct (map_from_spec data 0 (S next)) as (out & next' & Hrun & Hmap & Hall).
  exists next, out, next'. split; [|split; [exact Hmap|split]].
  - unfold defaultTransformer, fresh_ref. unfold_run. rewrite Hrun.
    reflexivity.
  - apply Forall_forall. intros t Hin. apply In_nth_error in Hin.
    destruct Hin as [i Hi]. destruct (Hall i t Hi) as [Hid _].
    rewrite Hid. apply default_id_nonempty.
  - apply Forall_forall. intros t Hin. apply In_nth_error in Hin.
    destruct Hin as [i Hi]. destruct (Hall i t Hi) as [_ Hty].
    rewrite Hty. apply default_type_truthy.
Qed.

(** X27: the fallback id.  An item whose datum has no usable [id], [key]
    or [_id] gets the id ["item-{index}"], and two such items of one result
    have different ids. *)
Theorem defaultTransformer_fallback_ids :
  forall (data : list value) (next next' : ref) (r : ref)
         (out : list Transformed) (i j : nat) (ti tj : Transformed),
    defaultTransformer object_toString data next = (Normal (r, out), next') ->
    nth_error out i = Some ti ->
    nth_error out j = Some tj ->
    lacks_id object_toString (t_content ti) ->
    lacks_id object_toString (t_content tj) ->
    i <> j ->
    t_id ti = "item-" ++ string_of_Z (Z.of_nat i)
    /\ t_id ti <> t_id tj.
Proof.
  intros data next next' r out i j ti tj Hrun Hi Hj Hli Hlj Hne.
  destruct (map_from_spec data 0 (S next)) as (out' & n' & Hrun' & _ & Hall).
  unfold defaultTransformer, fresh_ref in Hrun. unfold_run.
  rewrite Hrun' in Hrun. injection Hrun as _ <- _.
  destruct (Hall i ti Hi) as [Hidi _]. destruct (Hall j tj Hj) as [Hidj _].
  cbn [Nat.add] in Hidi, Hidj.
  rewrite (default_id_fallback _ _ Hli) in Hidi.
  rewrite (default_id_fallback _ _ Hlj) in Hidj.
  split; [exact Hidi|]. rewrite Hidi, Hidj. intros Heq.
  cbn in Heq. injection Heq as Heq. apply string_of_Z_inj in Heq. lia.
Qed.

End DefaultTransformerFacts.

Lemma defaultTransformer_fallback_ids_witness :
  t_id Sample.transformed_2 = "item-" ++ string_of_Z (Z.of_nat 2)
  /\ t_id Sample.transformed_2 <> t_id Sample.transformed_3.
Proof.
  apply (defaultTransformer_fallback_ids Sample.plain_toString
           Sample.data 300 305 300
           [Sample.transformed_0; Sample.transformed_1;
            Sample.transformed_2; Sample.transformed_3] 2 3).
  - reflexivity.
  - reflexivity.
  - reflexivity.
  - reflexivity.
  - reflexivity.
  - discriminate.
Defined.
